(** * Excel Manager: the file-backed tabular editing model

    A shallow embedding of the table logic of [week2.1.py] (a Streamlit page
    over pandas) and the properties of its loading, mutation, dtype
    reconciliation and writing steps.

    Conventions of the embedding.
    - pandas calls are modelled with the semantics of pandas 2.x: object
      columns hold arbitrary Python scalars, [astype(str)] applies [str] to
      every element, [to_numeric(errors='coerce')] turns what it cannot parse
      into NaN, [drop(index=...)] raises [KeyError] on a missing label.
    - A numeric cell holds a [number]: the numeric value, the same whether
      pandas stores it as int64 or upcasts it to float64. How a number prints
      and how text parses to a number is the numeric library's business and
      is a parameter ([NumericLib]); so is the xlsx encoding ([ExcelCodec]).
    - Cells are numbers, booleans, text, [None] and NaN. Column labels are
      text. Text is held as its UTF-8 bytes.
    - A frame keeps the columns of one dtype in one block, as the reader
      builds it; [pd.concat] joins two frames unit by unit, a unit being a
      longest stretch of adjacent columns of one block.
    - Effects (file system, Streamlit calls, exceptions) live in the monad
      [M] over [world]. *)

From stdpp Require Import base option list strings pretty gmap sorting.
From Stdlib Require Import Ascii.

Open Scope string_scope.
Open Scope list_scope.

(** ** Python string methods

    Text is held as its UTF-8 bytes. *)

(** [c.lower()] for one byte: the letters A to Z. *)
Definition lower_char (c : ascii) : ascii :=
  let n := nat_of_ascii c in
  if (65 <=? n)%nat && (n <=? 90)%nat then ascii_of_nat (n + 32) else c.

(** [s.lower()] on the letters A to Z. The script only compares lowered
    text with "name", "row name" and ".xlsx", and no character outside the
    ASCII range lowers to a letter of these. *)
Fixpoint lower (s : string) : string :=
  match s with
  | EmptyString => EmptyString
  | String c s' => String (lower_char c) (lower s')
  end.

(** [s.startswith(prefix)]. *)
Fixpoint startswith (s prefix : string) {struct prefix} : bool :=
  match prefix, s with
  | EmptyString, _ => true
  | String a prefix', String b s' => bool_decide (a = b) && startswith s' prefix'
  | String _ _, EmptyString => false
  end.

(** The text of the given byte codes. *)
Definition bytes (codes : list nat) : string :=
  foldr (λ n s, String (ascii_of_nat n) s) "" codes.

(** The characters [str.strip] removes (those of [str.isspace]), each as
    its UTF-8 bytes: the codes 9 to 13 and 28 to 32, then U+0085, U+00A0,
    U+1680, U+2000 to U+200A, U+2028, U+2029, U+202F, U+205F and U+3000. *)
Definition whitespace : list string :=
  bytes <$>
    ((λ n, [n]) <$> seq 9 5 ++ seq 28 5) ++
    [[194; 133]; [194; 160]; [225; 154; 128]] ++
    ((λ n, [226; 128; n]) <$> seq 128 11) ++
    [[226; 128; 168]; [226; 128; 169]; [226; 128; 175];
     [226; 129; 159]; [227; 128; 128]].

(** The number of bytes of the character of [spaces] that [s] starts with,
    0 when it starts with none. *)
Definition space_width (spaces : list string) (s : string) : nat :=
  match filter (λ p, startswith s p = true) spaces with
  | p :: _ => String.length p
  | [] => 0
  end.

(** [s] without the characters of [spaces] it starts with; [pending] bytes
    of the character being removed are still to skip. *)
Fixpoint skip_spaces (spaces : list string) (pending : nat) (s : string)
  : string :=
  match s with
  | EmptyString => EmptyString
  | String _ s' =>
      match pending with
      | S k => skip_spaces spaces k s'
      | O =>
          match space_width spaces s with
          | O => s
          | S k => skip_spaces spaces k s'
          end
      end
  end.

(** [s.lstrip()]. *)
Definition lstrip (s : string) : string := skip_spaces whitespace 0 s.

(** [s.rstrip()]: the same from the end, on the reversed bytes. *)
Definition rstrip (s : string) : string :=
  String.rev (skip_spaces (String.rev <$> whitespace) 0 (String.rev s)).

(** [s.strip()]. *)
Definition strip (s : string) : string := rstrip (lstrip s).

(** [s.endswith(suffix)]. *)
Definition endswith (s suffix : string) : bool :=
  startswith (String.rev s) (String.rev suffix).

(** [prefix + rest == s], as a lookup of [rest]. *)
Fixpoint strip_prefix (prefix s : string) : option string :=
  match prefix, s with
  | EmptyString, _ => Some s
  | String a prefix', String b s' =>
      if decide (a = b) then strip_prefix prefix' s' else None
  | String _ _, EmptyString => None
  end.

(** [c in s]. *)
Fixpoint contains_char (c : ascii) (s : string) : bool :=
  match s with
  | EmptyString => false
  | String b s' => bool_decide (b = c) || contains_char c s'
  end.

(** [sorted(l)] on strings: ascending in the order of the character codes. *)
Definition sorted (l : list string) : list string :=
  merge_sort String.le l.

(** ** Exceptions, the world and the effect monad *)

(** The exceptions the script can meet. [RerunException] is Streamlit's
    script-control exception: a [BaseException], which [except Exception]
    does not catch. *)
Inductive exn :=
| KeyError (msg : string)
| FileNotFoundError (path : string)
| PermissionError (path : string)
| ReadError (msg : string)
| RerunException.

(** [repr(s)] for a text of printable characters without quote or
    backslash: the text between single quotes. *)
Definition repr (s : string) : string := "'" +:+ s +:+ "'".

(** [str(e)]. An OS error shows its number, its text and the repr of the
    path; a [KeyError] shows the repr of its message. *)
Definition exn_str (e : exn) : string :=
  match e with
  | KeyError msg => repr msg
  | FileNotFoundError path =>
      "[Errno 2] No such file or directory: " +:+ repr path
  | PermissionError path => "[Errno 13] Permission denied: " +:+ repr path
  | ReadError msg => msg
  | RerunException => ""
  end.

(** [isinstance(e, Exception)]. *)
Definition is_Exception (e : exn) : bool :=
  match e with
  | RerunException => false
  | _ => true
  end.

Inductive outcome (A : Type) :=
| Ret (a : A)
| Raise (e : exn).
Arguments Ret {A} a.
Arguments Raise {A} e.

(** What the page shows. *)
Inductive ui_event :=
| Toast (msg : string)
| Warning (msg : string)
| Error (msg : string)
| Info (msg : string)
| Balloons.

(** The world: the files of the data folder with their bytes, the paths the
    storage refuses to write (locked by another process, no permission), and
    the messages shown so far. *)
Record world := mkWorld {
  files : gmap string string;
  locked : gset string;
  ui : list ui_event
}.

Definition M (A : Type) : Type := world → outcome A * world.

Global Instance M_ret : MRet M := λ A a w, (Ret a, w).

Global Instance M_bind : MBind M := λ A B f m w,
  match m w with
  | (Ret a, w') => f a w'
  | (Raise e, w') => (Raise e, w')
  end.

(** [raise e]. *)
Definition raise {A} (e : exn) : M A := λ w, (Raise e, w).

(** A pure computation that may raise. *)
Definition lift {A} (o : outcome A) : M A := λ w, (o, w).

(** [try: body / except Exception as e: handler(e)]. *)
Definition try_except {A} (body : M A) (handler : exn → M A) : M A := λ w,
  match body w with
  | (Ret a, w') => (Ret a, w')
  | (Raise e, w') => if is_Exception e then handler e w' else (Raise e, w')
  end.

Definition show (ev : ui_event) : M () := λ w,
  (Ret (), mkWorld (files w) (locked w) (ui w ++ [ev])).

Definition st_toast (msg : string) : M () := show (Toast msg).
Definition st_warning (msg : string) : M () := show (Warning msg).
Definition st_error (msg : string) : M () := show (Error msg).
Definition st_info (msg : string) : M () := show (Info msg).
Definition st_balloons : M () := show Balloons.

(** [st.rerun()]: stops the script run. *)
Definition st_rerun : M () := raise RerunException.

(** [path.exists()]. *)
Definition path_exists (path : string) : M bool := λ w,
  (Ret (bool_decide (is_Some (files w !! path))), w).

(** [path.stat().st_size]. *)
Definition stat_size (path : string) : M nat := λ w,
  match files w !! path with
  | Some bytes => (Ret (String.length bytes), w)
  | None => (Raise (FileNotFoundError path), w)
  end.

(** [os.remove(path)]. *)
Definition os_remove (path : string) : M () := λ w,
  match files w !! path with
  | None => (Raise (FileNotFoundError path), w)
  | Some _ =>
      if decide (path ∈ locked w) then (Raise (PermissionError path), w)
      else (Ret (), mkWorld (delete path (files w)) (locked w) (ui w))
  end.

(** [DATA_FOLDER] (line 58). *)
Definition DATA_FOLDER : string := "All Data - Bushra Abu Hani".

(** [folder / name], for a file name. *)
Definition joinpath (folder name : string) : string :=
  folder +:+ "/" +:+ name.

(** A file name: not empty, no separator. *)
Definition plain_name (name : string) : bool :=
  negb (bool_decide (name = "")) && negb (contains_char "/" name).

(** The name under which [path] sits in [folder], when it sits there. *)
Definition entry_of (folder path : string) : option string :=
  name ← strip_prefix (folder +:+ "/") path;
  if plain_name name then Some name else None.

(** [os.listdir(folder)] for the flat data folder, which exists (line 59):
    the names of its files, in no particular order. *)
Definition os_listdir (folder : string) : M (list string) := λ w,
  (Ret (omap (entry_of folder) (elements (dom (files w)))), w).

(** [list_excel_files] (lines 62 and 63). *)
Definition list_excel_files (folder : string) : M (list string) :=
  entries ← os_listdir folder;
  mret (sorted (filter (λ f, endswith (lower f) ".xlsx" = true) entries)).

(** ** Data model *)

(** The column dtypes the reader produces for number, boolean and text
    cells. *)
Inductive dtype := int64 | float64 | bool_ | object_.

Global Instance dtype_eq_dec : EqDecision dtype.
Proof. solve_decision. Defined.

(** [pd.api.types.is_numeric_dtype]: integers, floats and booleans. *)
Definition is_numeric_dtype (d : dtype) : bool :=
  match d with
  | int64 | float64 | bool_ => true
  | object_ => false
  end.

(** The numeric library: the numeric values, their [str] in a column of a
    given dtype, and the parser behind [pd.to_numeric], which answers with
    the value and whether the text was an integer literal, or fails. *)
Class NumericLib := {
  number : Type;
  number_eq_dec :: EqDecision number;
  num_str : dtype → number → string;
  parse_numeric : string → option (bool * number)
}.

Section Frames.
Context `{NumericLib}.

(** A cell: Python [None], NaN, a number, a boolean or text. *)
Inductive cell :=
| CNone
| CNaN
| CNum (x : number)
| CBool (b : bool)
| CStr (s : string).

Global Instance cell_eq_dec : EqDecision cell.
Proof. solve_decision. Defined.

(** The absent markers ([pd.isna]). *)
Definition is_absent (c : cell) : bool :=
  match c with
  | CNone | CNaN => true
  | _ => false
  end.

Definition is_text (c : cell) : bool :=
  match c with
  | CStr _ => true
  | _ => false
  end.

Definition is_number (c : cell) : bool :=
  match c with
  | CNum _ => true
  | _ => false
  end.

Record Series := mkSeries { sdtype : dtype; svalues : list cell }.

Global Instance Series_eq_dec : EqDecision Series.
Proof. solve_decision. Defined.

(** A DataFrame: the row labels and the named columns, in order. *)
Record DataFrame := mkFrame {
  index : list Z;
  columns : list (string * Series)
}.

Global Instance DataFrame_eq_dec : EqDecision DataFrame.
Proof. solve_decision. Defined.

(** [range(n)]. *)
Definition range (n : nat) : list Z := Z.of_nat <$> seq 0 n.

(** [pd.DataFrame()]: no columns, no rows. *)
Definition empty_frame : DataFrame := mkFrame [] [].

(** [df.columns]. *)
Definition names (df : DataFrame) : list string := (columns df).*1.

(** [len(df)]. *)
Definition nrows (df : DataFrame) : nat := length (index df).

(** [df[name]] as a lookup: the first column with that label. *)
Fixpoint lookup_column (cols : list (string * Series)) (name : string)
  : option Series :=
  match cols with
  | [] => None
  | (n, s) :: cols' =>
      if decide (n = name) then Some s else lookup_column cols' name
  end.

Definition get_column (df : DataFrame) (name : string) : option Series :=
  lookup_column (columns df) name.

(** [df[name] = s]: replaces the column in place when the label exists,
    appends it otherwise. *)
Fixpoint assign_column (cols : list (string * Series)) (name : string)
    (s : Series) : list (string * Series) :=
  match cols with
  | [] => [(name, s)]
  | (n, s0) :: cols' =>
      if decide (n = name) then (n, s) :: cols'
      else (n, s0) :: assign_column cols' name s
  end.

Definition set_column (df : DataFrame) (name : string) (s : Series)
  : DataFrame :=
  mkFrame (index df) (assign_column (columns df) name s).

(** Row [i] read across the columns. *)
Definition row (df : DataFrame) (i : nat) : list (option cell) :=
  (λ c, svalues c.2 !! i) <$> columns df.

(** The rows in order. *)
Definition rows (df : DataFrame) : list (list (option cell)) :=
  row df <$> seq 0 (nrows df).

(** The frames the reader builds: unique labels, every column as long as
    the index, and NaN (never [None]) for a missing cell. *)
Definition column_ok (n : nat) (s : Series) : Prop :=
  length (svalues s) = n ∧ CNone ∉ svalues s.

Definition frame_ok (df : DataFrame) : Prop :=
  NoDup (names df) ∧ Forall (λ c, column_ok (nrows df) c.2) (columns df).

(** ** DtypeReconciler *)

(** [str(x)] of a cell stored in a column of dtype [d]. *)
Definition cell_str (d : dtype) (c : cell) : string :=
  match c with
  | CNone => "None"
  | CNaN => "nan"
  | CNum x => num_str d x
  | CBool true => "True"
  | CBool false => "False"
  | CStr s => s
  end.

(** [s.astype(str)]. *)
Definition series_astype_str (s : Series) : Series :=
  mkSeries object_ ((λ c, CStr (cell_str (sdtype s) c)) <$> svalues s).

(** [df.astype(str)] (line 179). *)
Definition to_editable (df : DataFrame) : DataFrame :=
  mkFrame (index df) (prod_map id series_astype_str <$> columns df).

(** [df.dtypes.to_dict()] (line 178), in column order. *)
Definition dtypes (df : DataFrame) : list (string * dtype) :=
  prod_map id sdtype <$> columns df.

(** One element under [pd.to_numeric(..., errors='coerce')]: text goes
    through the parser and becomes NaN when it does not parse; [None] becomes
    NaN; numbers and booleans stay. *)
Definition coerce_numeric (c : cell) : cell :=
  match c with
  | CStr s =>
      match parse_numeric s with
      | Some (_, x) => CNum x
      | None => CNaN
      end
  | CNone | CNaN => CNaN
  | CNum x => CNum x
  | CBool b => CBool b
  end.

(** Whether the element keeps the result an integer column. *)
Definition integer_like (c : cell) : bool :=
  match c with
  | CStr s =>
      match parse_numeric s with
      | Some (true, _) => true
      | _ => false
      end
  | _ => false
  end.

(** [pd.to_numeric(s, errors='coerce')]: a numeric series comes back as it
    is; otherwise every element is coerced, and the result is int64 when all
    of them were integer literals and float64 otherwise. *)
Definition to_numeric (s : Series) : Series :=
  if is_numeric_dtype (sdtype s) then s
  else mkSeries (if forallb integer_like (svalues s) then int64 else float64)
                (coerce_numeric <$> svalues s).

(** [restore_dtypes] (lines 190 to 194). [edited_df[col]] raises [KeyError]
    when the view has no such column. The frame is updated in place and
    returned, so the result is the view itself after the loop. *)
Fixpoint restore_dtypes (original_dtypes : list (string * dtype))
    (edited_df : DataFrame) : outcome DataFrame :=
  match original_dtypes with
  | [] => Ret edited_df
  | (col, dt) :: rest =>
      if is_numeric_dtype dt then
        match get_column edited_df col with
        | Some s => restore_dtypes rest (set_column edited_df col (to_numeric s))
        | None => Raise (KeyError col)
        end
      else restore_dtypes rest edited_df
  end.

(** ** TableLoader: the legacy-column filter (line 123) *)

Definition is_legacy_name (c : string) : bool :=
  bool_decide (lower c ∈ ["name"; "row name"]).

Definition drop_legacy_columns (df : DataFrame) : DataFrame :=
  mkFrame (index df) (filter (λ c, is_legacy_name c.1 = false) (columns df)).

(** ** TableMutator *)

(** The name kept for one text input (lines 137 to 141): a name that is
    "name" once stripped and lowered is replaced by [Column_<count+1>], the
    count being that of the table when the form is rendered. *)
Definition requested_name (df : DataFrame) (col_name : string) : string :=
  if decide (lower (strip col_name) = "name")
  then "Column_" +:+ pretty (length (names df) + 1)%nat
  else col_name.

Definition col_names (df : DataFrame) (inputs : list string) : list string :=
  requested_name df <$> inputs.

(** [f"{original_name}_{k}"]. *)
Definition suffixed (original_name : string) (k : nat) : string :=
  original_name +:+ "_" +:+ pretty k.

(** The loop of lines 146 to 148, [fuel] bounding the number of renamings:
    [while name in df.columns: name = f"{original_name}_{k}"; k += 1]. *)
Fixpoint unique_name (cols : list string) (original_name name : string)
    (k : nat) (fuel : nat) : option string :=
  if decide (name ∈ cols) then
    match fuel with
    | O => None
    | S fuel' =>
        unique_name cols original_name (suffixed original_name k) (S k) fuel'
    end
  else Some name.

(** [df[name] = None] (line 149): an object column of [None]. *)
Definition add_blank_column (df : DataFrame) (name : string) : DataFrame :=
  set_column df name (mkSeries object_ (replicate (nrows df) CNone)).

(** The loop of lines 143 to 149. A table of [n] columns needs at most [n]
    renamings, which is the fuel given to the inner loop. *)
Fixpoint add_columns_loop (df : DataFrame) (col_names : list string)
  : option DataFrame :=
  match col_names with
  | [] => Some df
  | name :: rest =>
      match unique_name (names df) name name 2 (length (names df)) with
      | Some name' => add_columns_loop (add_blank_column df name') rest
      | None => None
      end
  end.

(** Add Columns: the names read from the form, then the loop. *)
Definition add_columns (df : DataFrame) (inputs : list string)
  : option DataFrame :=
  add_columns_loop df (col_names df inputs).

(** [pd.DataFrame([{c: None for c in df.columns} for _ in range(nrows)])]
    (line 169): [nrows] rows of [None] under the labels of [df]; an empty
    list of records gives the empty frame. *)
Definition blanks (df : DataFrame) (n : nat) : DataFrame :=
  match n with
  | O => empty_frame
  | _ => mkFrame (range n)
           ((λ c, (c, mkSeries object_ (replicate n CNone))) <$> names df)
  end.

(** The dtypes whose arrays can hold a missing value. *)
Definition can_hold_na (d : dtype) : bool :=
  match d with
  | float64 | object_ => true
  | int64 | bool_ => false
  end.

(** The common dtype of two arrays: equal dtypes stay, integers and floats
    meet in float64, anything else in object. (At line 170 one of two
    different dtypes is always object.) *)
Definition common_dtype (d1 d2 : dtype) : dtype :=
  if decide (d1 = d2) then d1
  else match d1, d2 with
       | int64, float64 | float64, int64 => float64
       | _, _ => object_
       end.

(** [sum(df.shape) == 0]: no row and no column. *)
Definition shapeless (df : DataFrame) : bool :=
  bool_decide (nrows df = 0%nat) && bool_decide (columns df = []).

(** The columns of [a], each with the column of [b] under its label. *)
Definition paired (a b : DataFrame) : list (string * (Series * Series)) :=
  omap (λ c, sb ← get_column b c.1; Some (c.1, (c.2, sb))) (columns a).

(** Two adjacent columns that sit in one block in each frame: pandas keeps
    the columns of one dtype of a frame in one block. *)
Definition same_blocks (p q : string * (Series * Series)) : bool :=
  bool_decide (sdtype p.2.1 = sdtype q.2.1) &&
  bool_decide (sdtype p.2.2 = sdtype q.2.2).

(** The join units of [pd.concat]: the longest stretches of adjacent
    columns that sit in one block in each frame. *)
Fixpoint join_units (pairs : list (string * (Series * Series)))
  : list (list (string * (Series * Series))) :=
  match pairs with
  | [] => []
  | p :: rest =>
      match join_units rest with
      | (q :: unit) :: others =>
          if same_blocks p q then (p :: q :: unit) :: others
          else [p] :: (q :: unit) :: others
      | others => [p] :: others
      end
  end.

(** An all-missing part of a unit: columns that can hold missing values and
    hold nothing else (a part without rows counts). *)
Definition all_na (part : list Series) : bool :=
  forallb (λ s, can_hold_na (sdtype s) && forallb is_absent (svalues s)) part.

(** The value that refills an all-missing part under dtype [d]: [None] for
    an object part whose first cell is [None] and that stays object, NaN
    otherwise. *)
Definition na_fill (d : dtype) (part : list Series) : cell :=
  match part with
  | s :: _ =>
      match sdtype s, svalues s, d with
      | object_, CNone :: _, object_ => CNone
      | _, _, _ => CNaN
      end
  | [] => CNaN
  end.

(** One column of a unit, [pa] and [pb] being the parts of the unit in the
    two frames (pandas 2.x). An all-missing part does not take part in the
    choice of the dtype [d0] unless both are; when [d0] can hold missing
    values, an all-missing part is refilled under [d0]; the two columns are
    then joined under their common dtype. *)
Definition concat_pair (pa pb : list Series) (sa sb : Series) : Series :=
  let d0 :=
    if decide (sdtype sa = sdtype sb) then sdtype sa
    else if all_na pb && negb (all_na pa) then sdtype sa
    else if all_na pa && negb (all_na pb) then sdtype sb
    else common_dtype (sdtype sa) (sdtype sb) in
  let refilled (part : list Series) (s : Series) :=
    if can_hold_na d0 && all_na part
    then mkSeries d0 (replicate (length (svalues s)) (na_fill d0 part))
    else s in
  let sa' := refilled pa sa in
  let sb' := refilled pb sb in
  mkSeries (common_dtype (sdtype sa') (sdtype sb'))
           (svalues sa' ++ svalues sb').

(** The columns of one unit, joined. *)
Definition concat_unit (unit : list (string * (Series * Series)))
  : list (string * Series) :=
  let pa := (λ p, p.2.1) <$> unit in
  let pb := (λ p, p.2.2) <$> unit in
  (λ p, (p.1, concat_pair pa pb p.2.1 p.2.2)) <$> unit.

(** [pd.concat([a, b], ignore_index=True)] for two frames with the same
    labels, as line 170 joins them ([blanks] is built under the labels of
    [df]). A frame without rows and columns is left out. Otherwise the rows
    of [a], then those of [b], unit by unit, under a fresh range index. *)
Definition concat_ignore_index (a b : DataFrame) : DataFrame :=
  if shapeless b then mkFrame (range (nrows a)) (columns a)
  else if shapeless a then mkFrame (range (nrows b)) (columns b)
  else mkFrame (range (nrows a + nrows b))
         (mjoin (concat_unit <$> join_units (paired a b))).

(** Add Rows (lines 169 and 170). *)
Definition add_rows (df : DataFrame) (n : nat) : DataFrame :=
  concat_ignore_index df (blanks df n).

(** [str] of a list of integers. *)
Fixpoint comma_separated (l : list Z) : string :=
  match l with
  | [] => ""
  | [x] => pretty x
  | x :: l' => pretty x +:+ ", " +:+ comma_separated l'
  end.

(** The message of the [KeyError] of [drop]: the labels it did not find. *)
Definition not_found_in_axis (missing : list Z) : string :=
  "[" +:+ comma_separated missing +:+ "] not found in axis".

(** [df.drop(index=labels)]: [KeyError] when a label is not in the index;
    otherwise the rows whose label is listed are removed. *)
Definition drop_index (df : DataFrame) (labels : list Z) : outcome DataFrame :=
  if decide (Forall (λ l, l ∈ index df) labels) then
    Ret (mkFrame
           (filter (λ l, l ∉ labels) (index df))
           (prod_map id
              (λ s, mkSeries (sdtype s)
                 (filter (λ p, p.1 ∉ labels) (zip (index df) (svalues s))).*2)
              <$> columns df))
  else Raise (KeyError (not_found_in_axis
                          (filter (λ l, l ∉ index df) labels))).

(** [df.reset_index(drop=True)]. *)
Definition reset_index (df : DataFrame) : DataFrame :=
  mkFrame (range (nrows df)) (columns df).

(** Delete rows (line 216). *)
Definition delete_rows (df : DataFrame) (indices : list Z)
  : outcome DataFrame :=
  match drop_index df indices with
  | Ret d => Ret (reset_index d)
  | Raise e => Raise e
  end.

(** [df.drop(columns=cols_to_drop, errors="ignore")] (line 159). *)
Definition delete_columns (df : DataFrame) (cols_to_drop : list string)
  : DataFrame :=
  mkFrame (index df) (filter (λ c, c.1 ∉ cols_to_drop) (columns df)).

(** [df.empty]: no rows or no columns. *)
Definition frame_empty (df : DataFrame) : bool :=
  bool_decide (nrows df = 0%nat) || bool_decide (columns df = []).

End Frames.

(** ** Storage and the handlers *)

(** The xlsx codec: [df.to_excel(path, index=False)] produces the bytes of a
    workbook; [pd.read_excel] rebuilds a frame from bytes or fails with a
    message. *)
Class ExcelCodec `{NumericLib} := {
  to_excel_bytes : DataFrame → string;
  read_excel_bytes : string → string + DataFrame
}.

Section Handlers.
Context `{ExcelCodec}.

(** [pd.read_excel(path)]. *)
Definition read_excel (path : string) : M DataFrame := λ w,
  match files w !! path with
  | None => (Raise (FileNotFoundError path), w)
  | Some bytes =>
      match read_excel_bytes bytes with
      | inl msg => (Raise (ReadError msg), w)
      | inr df => (Ret df, w)
      end
  end.

(** [df.to_excel(path, index=False)]: replaces the file, unless the storage
    refuses. *)
Definition to_excel (path : string) (df : DataFrame) : M () := λ w,
  if decide (path ∈ locked w) then (Raise (PermissionError path), w)
  else (Ret (), mkWorld (<[path := to_excel_bytes df]> (files w))
                        (locked w) (ui w)).

(** [safe_read_excel] (lines 65 to 72). *)
Definition safe_read_excel (path : string) : M DataFrame :=
  ex ← path_exists path;
  no_data ← (if negb ex then mret true
             else size ← stat_size path; mret (bool_decide (size = 0%nat)));
  if (no_data : bool) then mret empty_frame
  else try_except (read_excel path)
         (λ e, st_warning ("Failed to read file: " +:+ exn_str e);;
               mret empty_frame).

(** [safe_write_excel] (lines 74 to 79). *)
Definition safe_write_excel (path : string) (df : DataFrame) : M () :=
  try_except (to_excel path df;; st_toast "Saved successfully ✅")
    (λ e, st_error ("Failed to save: " +:+ exn_str e)).

(** [create_excel] (lines 81 to 86). *)
Definition create_excel (path : string) : M () :=
  ex ← path_exists path;
  if (ex : bool) then st_info "File already exists."
  else safe_write_excel path empty_frame;; st_balloons.

(** Opening the selected file (lines 120 and 123): the frame read, without
    its legacy columns. *)
Definition open_table (path : string) : M DataFrame :=
  df ← safe_read_excel path;
  mret (drop_legacy_columns df).

(** The Save Table button (lines 202 to 205). *)
Definition save_table_handler (path : string)
    (original_dtypes : list (string * dtype)) (edited_df : DataFrame) : M () :=
  edited_df_to_save ← lift (restore_dtypes original_dtypes edited_df);
  safe_write_excel path edited_df_to_save;;
  st_balloons.

(** The Delete Selected Rows button (lines 209 to 220): shown when the view
    is not empty, enabled when some row is selected. *)
Definition delete_rows_handler (path : string) (edited_df : DataFrame)
    (rows_to_delete : list Z) : M () :=
  if frame_empty edited_df then mret ()
  else if bool_decide (rows_to_delete = []) then mret ()
  else
    new_df ← lift (delete_rows edited_df rows_to_delete);
    safe_write_excel path new_df;;
    st_toast "Rows deleted 🗑️";;
    st_balloons;;
    st_rerun.

(** The placeholder of the file select box (line 92). *)
Definition none_label : string := "— None —".

(** The Create File button (lines 97 to 102). *)
Definition create_file_handler (folder new_name : string) : M () :=
  if negb (endswith (lower new_name) ".xlsx")
  then st_warning "Add the .xlsx extension."
  else create_excel (joinpath folder new_name);; st_rerun.

(** The Delete Selected File button (lines 106 to 114): shown when a file is
    selected, enabled by the confirmation box. *)
Definition delete_file_handler (folder current_file : string)
    (confirm_del : bool) : M () :=
  if bool_decide (current_file = none_label) then mret ()
  else if negb confirm_del then mret ()
  else try_except
         (os_remove (joinpath folder current_file);;
          st_toast "File deleted 🗑️";;
          st_rerun)
         (λ e, st_error ("Failed to delete file: " +:+ exn_str e)).

(** The Delete Selected Columns button (lines 158 to 162), disabled when
    nothing is selected. *)
Definition delete_columns_handler (path : string) (df : DataFrame)
    (cols_to_drop : list string) : M () :=
  if bool_decide (cols_to_drop = []) then mret ()
  else
    safe_write_excel path (delete_columns df cols_to_drop);;
    st_toast "Columns deleted 🗑️";;
    st_rerun.

(** The Add Rows button (lines 168 to 173). *)
Definition add_rows_handler (path : string) (df : DataFrame) (n : nat)
  : M () :=
  safe_write_excel path (add_rows df n);;
  st_balloons;;
  st_rerun.

End Handlers.

(** ** A concrete library, to run the model on sample tables

    Whole numbers only: a number is an integer, printed in decimal (with
    [.0] in a float column); the parser accepts optionally signed decimal
    integer literals. The sample codec stores a sheet as lines of
    tab-separated cells, after a two-byte magic; numbers, booleans and text
    are told apart by a one-letter tag and a missing value is an empty
    cell, so that dtypes are inferred again on reading, as with xlsx. *)
Module Sample.

Definition digit_value (c : ascii) : option Z :=
  let n := nat_of_ascii c in
  if (48 <=? n)%nat && (n <=? 57)%nat then Some (Z.of_nat (n - 48)) else None.

Fixpoint parse_digits (acc : Z) (s : string) : option Z :=
  match s with
  | EmptyString => Some acc
  | String c s' =>
      match digit_value c with
      | Some d => parse_digits (10 * acc + d)%Z s'
      | None => None
      end
  end.

Definition parse_unsigned (s : string) : option Z :=
  match s with
  | EmptyString => None
  | _ => parse_digits 0 s
  end.

Definition parse_integer (s : string) : option (bool * Z) :=
  match s with
  | String c s' =>
      if decide (c = "-"%char) then (λ z, (true, (- z)%Z)) <$> parse_unsigned s'
      else if decide (c = "+"%char) then (λ z, (true, z)) <$> parse_unsigned s'
      else (λ z, (true, z)) <$> parse_unsigned s
  | EmptyString => None
  end.

#[export] Instance integers : NumericLib := {|
  number := Z;
  num_str := λ d x,
    match d with
    | float64 => pretty x +:+ ".0"
    | _ => pretty x
    end;
  parse_numeric := parse_integer
|}.

Definition tab : ascii := ascii_of_nat 9.
Definition newline : ascii := ascii_of_nat 10.

Fixpoint join (sep : ascii) (l : list string) : string :=
  match l with
  | [] => ""
  | [s] => s
  | s :: l' => s +:+ String sep (join sep l')
  end.

(** The pieces of [s] between occurrences of [sep]. *)
Fixpoint split_go (sep : ascii) (cur : string) (s : string) : list string :=
  match s with
  | EmptyString => [String.rev cur]
  | String c s' =>
      if decide (c = sep) then String.rev cur :: split_go sep "" s'
      else split_go sep (String c cur) s'
  end.

Definition split (sep : ascii) (s : string) : list string := split_go sep "" s.

Definition encode_cell (c : cell) : string :=
  match c with
  | CNone | CNaN => ""
  | CNum x => "n" +:+ pretty x
  | CBool true => "b1"
  | CBool false => "b0"
  | CStr s => "s" +:+ s
  end.

Definition decode_cell (s : string) : option cell :=
  match s with
  | EmptyString => Some CNaN
  | String c s' =>
      if decide (c = "n"%char) then
        match parse_integer s' with
        | Some (_, z) => Some (CNum (z : Z))
        | None => None
        end
      else if decide (c = "b"%char) then
        if decide (s' = "1") then Some (CBool true)
        else if decide (s' = "0") then Some (CBool false)
        else None
      else if decide (c = "s"%char) then Some (CStr s')
      else None
  end.

Definition magic : string := "PK".

Definition encode_row (df : DataFrame) (i : nat) : string :=
  join tab ((λ c, encode_cell (default CNaN (svalues c.2 !! i))) <$> columns df).

(** The sheet written with [index=False]: the header, then the rows. *)
Definition encode_frame (df : DataFrame) : string :=
  magic +:+
  match columns df with
  | [] => ""
  | _ => join newline (join tab (names df) :: (encode_row df <$> seq 0 (nrows df)))
  end.

Definition infer_dtype (vs : list cell) : dtype :=
  match vs with
  | [] => object_
  | _ =>
      if forallb is_number vs then int64
      else if forallb (λ c, is_number c || is_absent c) vs then float64
      else if forallb (λ c, match c with CBool _ => true | _ => false end) vs
      then bool_
      else object_
  end.

(** Column [j] of the decoded rows. *)
Definition column_of (body : list (list cell)) (j : nat) : Series :=
  let vs := (λ r, default CNaN (r !! j)) <$> body in
  mkSeries (infer_dtype vs) vs.

Definition decode_sheet (sheet : string) : string + DataFrame :=
  match sheet with
  | EmptyString => inr empty_frame
  | _ =>
      match split newline sheet with
      | [] => inr empty_frame
      | header :: lines =>
          match mapM (λ l, mapM decode_cell (split tab l)) lines with
          | Some body =>
              inr (mkFrame (range (length body))
                     (imap (λ j n, (n, column_of body j)) (split tab header)))
          | None => inl "File is not a zip file"
          end
      end
  end.

(** The message of [pd.read_excel] for bytes that start like no workbook. *)
Definition unknown_format : string :=
  "Excel file format cannot be determined, you must specify an engine manually.".

Definition decode_frame (s : string) : string + DataFrame :=
  match s with
  | String p (String k sheet) =>
      if decide (String p (String k "") = magic) then decode_sheet sheet
      else inl unknown_format
  | _ => inl unknown_format
  end.

#[export] Instance codec : ExcelCodec := {|
  to_excel_bytes := encode_frame;
  read_excel_bytes := decode_frame
|}.

(** A small stock table: text, whole quantities, and a note column with a
    missing cell. *)
Definition stock : DataFrame :=
  mkFrame (range 3)
    [ ("Product", mkSeries object_ [CStr "bolt"; CStr "nut"; CStr "washer"]);
      ("Quantity", mkSeries int64 [CNum 10%Z; CNum 25%Z; CNum 7%Z]);
      ("Note", mkSeries object_ [CStr "ok"; CNaN; CStr "low"]) ].

(** The stock view after the user typed "abc" over the second quantity. *)
Definition edited_stock : DataFrame :=
  mkFrame (range 3)
    [ ("Product", mkSeries object_ [CStr "bolt"; CStr "nut"; CStr "washer"]);
      ("Quantity", mkSeries object_ [CStr "10"; CStr "abc"; CStr "7"]);
      ("Note", mkSeries object_ [CStr "ok"; CStr "nan"; CStr "low"]) ].

(** A table with a single column "A". *)
Definition letters : DataFrame :=
  mkFrame (range 1) [ ("A", mkSeries object_ [CStr "x"]) ].

(** A table with the columns "A" and "a". *)
Definition both_cases : DataFrame :=
  mkFrame (range 1)
    [ ("A", mkSeries object_ [CStr "x"]); ("a", mkSeries object_ [CStr "y"]) ].

(** The stock view after the user removed its first row in the editor: the
    remaining rows keep their labels. *)
Definition stock_view_after_removal : DataFrame :=
  mkFrame [1; 2]%Z
    [ ("Product", mkSeries object_ [CStr "nut"; CStr "washer"]);
      ("Quantity", mkSeries object_ [CStr "25"; CStr "7"]);
      ("Note", mkSeries object_ [CStr "nan"; CStr "low"]) ].

(** Amounts and weights, the weights all missing: next to the amounts, and
    apart from them. *)
Definition weights_adjacent : DataFrame :=
  mkFrame (range 2)
    [ ("Amount", mkSeries float64 [CNum 3%Z; CNum 4%Z]);
      ("Weight", mkSeries float64 [CNaN; CNaN]) ].

Definition weights_apart : DataFrame :=
  mkFrame (range 2)
    [ ("Amount", mkSeries float64 [CNum 3%Z; CNum 4%Z]);
      ("Count", mkSeries int64 [CNum 1%Z; CNum 2%Z]);
      ("Weight", mkSeries float64 [CNaN; CNaN]) ].

(** The stock view without its second row, as text and reconciled. *)
Definition stock_text_rows : DataFrame :=
  mkFrame (range 2)
    [ ("Product", mkSeries object_ [CStr "bolt"; CStr "washer"]);
      ("Quantity", mkSeries object_ [CStr "10"; CStr "7"]);
      ("Note", mkSeries object_ [CStr "ok"; CStr "low"]) ].

Definition stock_typed_rows : DataFrame :=
  mkFrame (range 2)
    [ ("Product", mkSeries object_ [CStr "bolt"; CStr "washer"]);
      ("Quantity", mkSeries int64 [CNum 10%Z; CNum 7%Z]);
      ("Note", mkSeries object_ [CStr "ok"; CStr "low"]) ].

Definition data_path : string := "All Data - Bushra Abu Hani/stock.xlsx".

Definition no_files : world := mkWorld ∅ ∅ [].

Definition stock_world : world :=
  mkWorld {[ data_path := encode_frame stock ]} ∅ [].

End Sample.

(** ** Vocabulary of the statements *)

(** Whether a dtype record marks the label as numeric. *)
Definition recorded_numeric (original_dtypes : list (string * dtype))
    (name : string) : bool :=
  existsb (λ p, bool_decide (p.1 = name) && is_numeric_dtype p.2)
    original_dtypes.

(** White space: a run of the characters [str.strip] removes. *)
Inductive white : string → Prop :=
| white_nil : white ""
| white_cons p s : p ∈ whitespace → white s → white (p +:+ s).

(** The name a requested column ends up with among the labels [cols]: the
    name itself when it is free, otherwise the first of [name_2], [name_3],
    ... that is free. *)
Inductive resolved (cols : list string) (original : string) : string → Prop :=
| resolved_free :
    original ∉ cols → resolved cols original original
| resolved_suffix k :
    (2 ≤ k)%nat →
    original ∈ cols →
    (∀ i, (2 ≤ i < k)%nat → suffixed original i ∈ cols) →
    suffixed original k ∉ cols →
    resolved cols original (suffixed original k).

(** A batch of requested names, each resolved against the labels present
    when its turn comes: the existing ones and those added before it. *)
Inductive batch : list string → list string → list string → Prop :=
| batch_nil cols : batch cols [] []
| batch_cons cols o os r rs :
    resolved cols o r →
    batch (cols ++ [r]) os rs →
    batch cols (o :: os) (r :: rs).

Section Vocabulary.
Context `{NumericLib}.

(** The frames the editor hands back: every column is an object column. *)
Definition editable_view (view : DataFrame) : Prop :=
  Forall (λ c, sdtype c.2 = object_) (columns view).

(** A column after [n] blank rows were appended: the same label, its own
    values, then [n] times one missing value. *)
Definition appended (n : nat) (c c' : string * Series) : Prop :=
  c'.1 = c.1 ∧
  ∃ v, is_absent v = true ∧ svalues c'.2 = svalues c.2 ++ replicate n v.

(** The values of a column that sit at the kept positions. *)
Definition values_at (vs : list cell) (kept : list nat) : list cell :=
  omap (λ i, vs !! i) kept.

(** The positions of [range(n)] that are not listed. *)
Definition kept_positions (n : nat) (indices : list Z) : list nat :=
  filter (λ i, Z.of_nat i ∉ indices) (seq 0 n).

End Vocabulary.

(** * Properties *)

(** ** Frames: columns by label *)

Section FrameFacts.
Context `{NumericLib}.

Lemma lookup_column_assign cols col s name :
  lookup_column (assign_column cols col s) name =
  if decide (col = name) then Some s else lookup_column cols name.
Proof.
  induction cols as [|[n s0] cols IH]; simpl.
  - repeat case_decide; congruence.
  - destruct (decide (n = col)) as [->|Hn]; simpl.
    + repeat case_decide; congruence.
    + rewrite IH. repeat case_decide; congruence.
Qed.

Lemma assign_column_names_in cols col s :
  col ∈ cols.*1 → (assign_column cols col s).*1 = cols.*1.
Proof.
  induction cols as [|[n s0] cols IH]; simpl; intros Hin.
  - by apply elem_of_nil in Hin.
  - destruct (decide (n = col)) as [->|Hn]; simpl; [done|].
    f_equal. apply IH. apply elem_of_cons in Hin as [?|?]; [congruence|done].
Qed.

Lemma assign_column_names_fresh cols col s :
  col ∉ cols.*1 → (assign_column cols col s).*1 = cols.*1 ++ [col].
Proof.
  induction cols as [|[n s0] cols IH]; simpl; intros Hin; [done|].
  apply not_elem_of_cons in Hin as [Hne Hin].
  destruct (decide (n = col)) as [->|Hn]; simpl; [done|].
  f_equal. by apply IH.
Qed.

Lemma lookup_column_Some_elem cols name s :
  lookup_column cols name = Some s → (name, s) ∈ cols.
Proof.
  induction cols as [|[n s0] cols IH]; simpl; [done|].
  case_decide; intros Heq.
  - simplify_eq. apply elem_of_cons. by left.
  - apply elem_of_cons. right. by apply IH.
Qed.

Lemma lookup_column_None cols name :
  lookup_column cols name = None ↔ name ∉ cols.*1.
Proof.
  induction cols as [|[n s0] cols IH]; simpl.
  - split; [intros _; apply not_elem_of_nil | done].
  - case_decide; subst.
    + split; [done|]. intros Hn. exfalso. apply Hn, elem_of_cons. by left.
    + rewrite IH, not_elem_of_cons. split; [by intros ?; split; [congruence|] | by intros [_ ?]].
Qed.

Lemma lookup_column_NoDup cols name s :
  NoDup cols.*1 → (name, s) ∈ cols → lookup_column cols name = Some s.
Proof.
  induction cols as [|[n s0] cols IH]; simpl; intros Hnd Hin.
  - by apply elem_of_nil in Hin.
  - apply NoDup_cons in Hnd as [Hn Hnd].
    apply elem_of_cons in Hin as [Heq|Hin].
    + simplify_eq. by rewrite decide_True.
    + case_decide; subst.
      * exfalso. apply Hn. apply list_elem_of_fmap. by exists (name, s).
      * by apply IH.
Qed.

Lemma lookup_column_fmap (f : Series → Series) cols name :
  lookup_column (prod_map id f <$> cols) name = f <$> lookup_column cols name.
Proof.
  induction cols as [|[n s0] cols IH]; simpl; [done|].
  case_decide; [done|apply IH].
Qed.

Lemma lookup_column_index cols j name s :
  NoDup cols.*1 → cols !! j = Some (name, s) →
  lookup_column cols name = Some s.
Proof.
  intros Hnd Hj. apply lookup_column_NoDup; [done|].
  by apply list_elem_of_lookup_2 in Hj.
Qed.

End FrameFacts.

(** ** DtypeReconciler *)

Section Reconciler.
Context `{NumericLib}.

Lemma to_numeric_numeric s : is_numeric_dtype (sdtype (to_numeric s)) = true.
Proof.
  unfold to_numeric. destruct (is_numeric_dtype (sdtype s)) eqn:E; [done|].
  simpl. by destruct (forallb _ _).
Qed.

Lemma to_numeric_idemp s : to_numeric (to_numeric s) = to_numeric s.
Proof.
  pose proof (to_numeric_numeric s) as Hn.
  unfold to_numeric at 1. by rewrite Hn.
Qed.

Lemma to_numeric_length s :
  length (svalues (to_numeric s)) = length (svalues s).
Proof.
  unfold to_numeric. destruct (is_numeric_dtype _); [done|].
  simpl. by rewrite length_fmap.
Qed.

Lemma to_numeric_object_lookup s i c :
  sdtype s = object_ → svalues s !! i = Some c →
  svalues (to_numeric s) !! i = Some (coerce_numeric c).
Proof.
  intros Hd Hi. unfold to_numeric. rewrite Hd. simpl.
  by rewrite list_lookup_fmap, Hi.
Qed.

Lemma series_astype_str_text s :
  sdtype s = object_ → Forall (λ c, is_text c = true) (svalues s) →
  series_astype_str s = s.
Proof.
  destruct s as [d vs]. simpl. intros -> Hall. unfold series_astype_str.
  simpl. f_equal. induction Hall as [|c vs Hc Hall IH]; [done|].
  rewrite fmap_cons, IH. by destruct c.
Qed.

(** What [restore_dtypes] leaves under each label: the numeric reading of
    the view's column when the label was recorded numeric, the view's column
    otherwise; labels and row labels do not change. *)
Lemma restore_dtypes_columns original_dtypes edited_df :
  (∀ col d, (col, d) ∈ original_dtypes → is_numeric_dtype d = true →
            col ∈ names edited_df) →
  ∃ df', restore_dtypes original_dtypes edited_df = Ret df' ∧
         index df' = index edited_df ∧
         names df' = names edited_df ∧
         ∀ name, get_column df' name =
                 if recorded_numeric original_dtypes name
                 then to_numeric <$> get_column edited_df name
                 else get_column edited_df name.
Proof.
  revert edited_df.
  induction original_dtypes as [|[col d] rest IH]; intros view Hin; simpl.
  - by exists view.
  - destruct (is_numeric_dtype d) eqn:Hd.
    + assert (col ∈ names view) as Hcol.
      { apply (Hin col d); [apply elem_of_cons; by left | done]. }
      destruct (get_column view col) as [s|] eqn:Hs.
      2:{ apply lookup_column_None in Hs. done. }
      destruct (IH (set_column view col (to_numeric s))) as (df' & Hr & Hi & Hn & Hc).
      { intros c' d' Hc' Hd'. unfold names, set_column. simpl.
        rewrite assign_column_names_in by done.
        apply (Hin c' d'); [apply elem_of_cons; by right | done]. }
      exists df'. split; [done|]. split; [by rewrite Hi|].
      split.
      { rewrite Hn. unfold names, set_column. simpl.
        by rewrite assign_column_names_in. }
      intros name. rewrite Hc. unfold get_column, set_column. simpl.
      rewrite lookup_column_assign. unfold get_column in Hs.
      destruct (decide (col = name)) as [->|Hne].
      * rewrite bool_decide_eq_true_2 by done. simpl. rewrite Hs. simpl.
        destruct (recorded_numeric rest name); [|done].
        by rewrite to_numeric_idemp.
      * rewrite bool_decide_eq_false_2 by done. done.
    + destruct (IH view) as (df' & Hr & Hi & Hn & Hc).
      { intros c' d' Hc' Hd'.
        apply (Hin c' d'); [apply elem_of_cons; by right | done]. }
      exists df'. repeat split; try done.
      intros name. rewrite Hc. by rewrite andb_false_r.
Qed.

Lemma recorded_numeric_dtypes df name s :
  NoDup (names df) → (name, s) ∈ columns df →
  recorded_numeric (dtypes df) name = is_numeric_dtype (sdtype s).
Proof.
  unfold names, dtypes, recorded_numeric. destruct df as [idx cols]. simpl.
  induction cols as [|[n s0] cols IH]; simpl; intros Hnd Hin.
  - by apply elem_of_nil in Hin.
  - apply NoDup_cons in Hnd as [Hn Hnd].
    apply elem_of_cons in Hin as [Heq|Hin].
    + simplify_eq. rewrite bool_decide_eq_true_2 by done. simpl.
      destruct (is_numeric_dtype (sdtype s0)) eqn:E; [done|]. simpl.
      apply not_true_is_false. intros Hex.
      apply existsb_exists in Hex as ([n' d'] & Hin' & Hb).
      apply andb_true_iff in Hb as [Hb _]. apply bool_decide_eq_true in Hb.
      simpl in Hb. apply Hn.
      apply list_elem_of_In in Hin'.
      apply list_elem_of_fmap in Hin' as ([n2 s2] & Heq & Hin2).
      apply list_elem_of_fmap. exists (n2, s2). split; [|done].
      simpl in *. congruence.
    + rewrite bool_decide_eq_false_2; [simpl; by apply IH|].
      simpl. intros ->. apply Hn. apply list_elem_of_fmap. by exists (name, s).
Qed.

Lemma to_editable_names df : names (to_editable df) = names df.
Proof.
  unfold names, to_editable. simpl. rewrite <- list_fmap_compose.
  apply list_fmap_ext. by intros ? [??].
Qed.

Lemma to_editable_get_column df name :
  get_column (to_editable df) name = series_astype_str <$> get_column df name.
Proof. apply lookup_column_fmap. Qed.

(** C2 (as amended). Every cell of every column of the editable view is the
    text [str] of the cell it comes from, in an object column of the same
    length under the same label; the text of a missing cell is the literal
    "None" (for [None]) or "nan" (for NaN), not an empty text. *)
Theorem to_editable_cell_text (df : DataFrame) (j i : nat) (name : string)
    (s : Series) (c : cell) :
  columns df !! j = Some (name, s) →
  svalues s !! i = Some c →
  index (to_editable df) = index df ∧
  length (columns (to_editable df)) = length (columns df) ∧
  ∃ s', columns (to_editable df) !! j = Some (name, s') ∧
        sdtype s' = object_ ∧
        length (svalues s') = length (svalues s) ∧
        svalues s' !! i = Some (CStr (cell_str (sdtype s) c)) ∧
        (c = CNone → cell_str (sdtype s) c = "None") ∧
        (c = CNaN → cell_str (sdtype s) c = "nan") ∧
        (is_absent c = true → cell_str (sdtype s) c ≠ "").
Proof.
  intros Hj Hi. split; [done|]. split.
  { unfold to_editable. simpl. by rewrite length_fmap. }
  exists (series_astype_str s). split.
  { unfold to_editable. simpl. by rewrite list_lookup_fmap, Hj. }
  split; [done|]. split.
  { unfold series_astype_str. simpl. by rewrite length_fmap. }
  split.
  { unfold series_astype_str. simpl. by rewrite list_lookup_fmap, Hi. }
  repeat split; try (by intros ->).
  by destruct c.
Qed.

(** C4 (as amended). With no edit in between, [to_editable] then
    [restore_dtypes] succeeds and returns, under every label not recorded
    numeric, the text projection of the original column; this is the original
    column itself when it is an object column whose cells are all text. *)
Theorem roundtrip_non_numeric_columns (df : DataFrame) (name : string)
    (s : Series) :
  NoDup (names df) →
  (name, s) ∈ columns df →
  is_numeric_dtype (sdtype s) = false →
  ∃ df', restore_dtypes (dtypes df) (to_editable df) = Ret df' ∧
         index df' = index df ∧
         names df' = names df ∧
         get_column df' name = Some (series_astype_str s) ∧
         (Forall (λ c, is_text c = true) (svalues s) →
          get_column df' name = Some s).
Proof.
  intros Hnd Hin Hs.
  destruct (restore_dtypes_columns (dtypes df) (to_editable df))
    as (df' & Hr & Hi & Hn & Hc).
  { intros col d Hcol _. rewrite to_editable_names.
    unfold dtypes in Hcol. apply list_elem_of_fmap in Hcol as ([n s0] & Heq & Hin0).
    simpl in Heq. simplify_eq. apply list_elem_of_fmap. by exists (n, s0). }
  exists df'. split; [done|]. split; [done|].
  split; [by rewrite Hn, to_editable_names|].
  assert (get_column df' name = Some (series_astype_str s)) as Hget.
  { rewrite Hc, (recorded_numeric_dtypes df name s), Hs by done.
    rewrite to_editable_get_column. unfold get_column.
    by rewrite (lookup_column_NoDup _ _ s). }
  split; [done|].
  intros Htext. rewrite Hget. f_equal. apply series_astype_str_text; [|done].
  by destruct (sdtype s).
Qed.

(** C5. For a view that still has the recorded columns, [restore_dtypes]
    does not raise and keeps labels and row labels. In a column recorded
    numeric every text cell becomes the number it parses to, or NaN when it
    does not parse (never the text itself), and [None] becomes NaN; a column
    not recorded numeric is returned as edited. *)
Theorem restore_dtypes_coerces (original_dtypes : list (string * dtype))
    (view : DataFrame) (name : string) (s : Series) :
  editable_view view →
  (∀ col d, (col, d) ∈ original_dtypes → is_numeric_dtype d = true →
            col ∈ names view) →
  get_column view name = Some s →
  ∃ df', restore_dtypes original_dtypes view = Ret df' ∧
         index df' = index view ∧
         names df' = names view ∧
         (recorded_numeric original_dtypes name = false →
          get_column df' name = Some s) ∧
         (recorded_numeric original_dtypes name = true →
          ∃ s', get_column df' name = Some s' ∧
                is_numeric_dtype (sdtype s') = true ∧
                length (svalues s') = length (svalues s) ∧
                ∀ i c, svalues s !! i = Some c →
                  ∃ c', svalues s' !! i = Some c' ∧
                    (∀ t, c = CStr t →
                       match parse_numeric t with
                       | Some (_, x) => c' = CNum x
                       | None => c' = CNaN ∧ is_absent c' = true
                       end ∧ c' ≠ CStr t) ∧
                    (c = CNone → c' = CNaN)).
Proof.
  intros Hview Hcols Hs.
  destruct (restore_dtypes_columns original_dtypes view Hcols)
    as (df' & Hr & Hi & Hn & Hc).
  exists df'. repeat (split; [done|]). split.
  - intros Hrec. by rewrite Hc, Hrec.
  - intros Hrec. exists (to_numeric s). split.
    { by rewrite Hc, Hrec, Hs. }
    split; [apply to_numeric_numeric|].
    split; [apply to_numeric_length|].
    assert (sdtype s = object_) as Hobj.
    { unfold editable_view in Hview. rewrite Forall_forall in Hview.
      apply (Hview (name, s)). by apply lookup_column_Some_elem. }
    intros i c Hi'. exists (coerce_numeric c).
    split; [by apply to_numeric_object_lookup|].
    split; [|by intros ->].
    intros t ->. simpl.
    destruct (parse_numeric t) as [[b x]|]; done.
Qed.

End Reconciler.

(** ** Names: lowering, stripping, suffixes *)

Lemma string_app_cons (c : ascii) (a b : string) :
  String c a +:+ b = String c (a +:+ b).
Proof. reflexivity. Qed.

Lemma string_length_app (a b : string) :
  String.length (a +:+ b) = (String.length a + String.length b)%nat.
Proof. induction a as [|c a IH]; simpl; [done|]. by rewrite IH. Qed.

Lemma lower_app (a b : string) : lower (a +:+ b) = lower a +:+ lower b.
Proof. induction a as [|c a IH]; simpl; [done|]. by rewrite IH. Qed.

Lemma suffixed_inj (original : string) (j k : nat) :
  suffixed original j = suffixed original k → j = k.
Proof.
  unfold suffixed. intros Heq.
  apply (inj (String.append original)) in Heq.
  apply (inj (String.append "_")) in Heq.
  by apply (inj pretty) in Heq.
Qed.

Lemma suffixed_ne (original : string) (k : nat) :
  suffixed original k ≠ original.
Proof.
  unfold suffixed. intros Heq.
  apply (f_equal String.length) in Heq.
  rewrite string_length_app in Heq. simpl in Heq. lia.
Qed.

Lemma underscore_not_in_name (a b : string) : a +:+ String "_" b ≠ "name".
Proof.
  destruct a as [|c1 [|c2 [|c3 [|c4 [|c5 a]]]]]; simpl; intros Heq;
    by simplify_eq.
Qed.

Lemma suffixed_not_name (original : string) (k : nat) :
  lower (suffixed original k) ≠ "name".
Proof.
  unfold suffixed. rewrite lower_app. simpl. apply underscore_not_in_name.
Qed.

Lemma lower_char_letter (c x : ascii) :
  x ∈ ["n"; "a"; "m"; "e"]%char → lower_char c = x →
  c = x ∨ c = ascii_of_nat (nat_of_ascii x - 32).
Proof.
  intros Hx Heq. subst x.
  destruct c as [[] [] [] [] [] [] [] []]; vm_compute in Hx |- *;
    try (left; reflexivity); try (right; reflexivity); exfalso;
    repeat (apply elem_of_cons in Hx as [Hx|Hx]; [discriminate Hx|]);
    by apply elem_of_nil in Hx.
Qed.

Lemma string_app_assoc (a b c : string) : (a +:+ b) +:+ c = a +:+ (b +:+ c).
Proof.
  induction a as [|x a IH]; [done|]. by rewrite !string_app_cons, IH.
Qed.

(** A name that lowers to "name" has no white space around it: stripping
    does not change it. *)
Lemma lower_name_strip (s : string) : lower s = "name" → strip s = s.
Proof.
  destruct s as [|c1 [|c2 [|c3 [|c4 [|c5 s]]]]]; simpl; intros Heq;
    try discriminate Heq.
  injection Heq as Hc1 Hc2 Hc3 Hc4.
  destruct (lower_char_letter c1 "n" ltac:(set_solver) Hc1) as [-> | ->];
    destruct (lower_char_letter c2 "a" ltac:(set_solver) Hc2) as [-> | ->];
    destruct (lower_char_letter c3 "m" ltac:(set_solver) Hc3) as [-> | ->];
    destruct (lower_char_letter c4 "e" ltac:(set_solver) Hc4) as [-> | ->];
    reflexivity.
Qed.

Lemma string_app_nil_r (s : string) : s +:+ "" = s.
Proof.
  induction s as [|c s IH]; [done|]. by rewrite string_app_cons, IH.
Qed.

Lemma string_rev_app_cons (s acc : string) :
  String.rev_app s acc = String.rev_app s "" +:+ acc.
Proof.
  revert acc. induction s as [|c s IH]; intros acc; simpl; [done|].
  rewrite (IH (String c acc)), (IH (String c "")).
  by rewrite string_app_assoc.
Qed.

Lemma string_rev_app_distr (a b : string) :
  String.rev (a +:+ b) = String.rev b +:+ String.rev a.
Proof.
  unfold String.rev. induction a as [|c a IH]; simpl.
  - by rewrite string_app_nil_r.
  - rewrite string_rev_app_cons, IH, (string_rev_app_cons a (String c "")).
    by rewrite string_app_assoc.
Qed.

(** One white-space character at the start is skipped, whatever follows;
    so is one at the end, read backwards. *)
Lemma skip_white_space (p s : string) :
  p ∈ whitespace →
  skip_spaces whitespace 0 (p +:+ s) = skip_spaces whitespace 0 s.
Proof.
  intros Hp. vm_compute in Hp.
  repeat (apply elem_of_cons in Hp as [->|Hp]; [reflexivity|]).
  by apply elem_of_nil in Hp.
Qed.

Lemma skip_white_space_rev (p s : string) :
  p ∈ whitespace →
  skip_spaces (String.rev <$> whitespace) 0 (String.rev p +:+ s)
  = skip_spaces (String.rev <$> whitespace) 0 s.
Proof.
  intros Hp. vm_compute in Hp.
  repeat (apply elem_of_cons in Hp as [->|Hp]; [reflexivity|]).
  by apply elem_of_nil in Hp.
Qed.

Lemma lstrip_white (pre s : string) :
  white pre → lstrip (pre +:+ s) = lstrip s.
Proof.
  unfold lstrip. induction 1 as [|p pre Hp _ IH]; [done|].
  rewrite string_app_assoc, skip_white_space by done. exact IH.
Qed.

Lemma rstrip_white (s post : string) :
  white post → rstrip (s +:+ post) = rstrip s.
Proof.
  intros Hpost. unfold rstrip. f_equal. rewrite string_rev_app_distr.
  generalize (String.rev s). clear s.
  induction Hpost as [|p post Hp _ IH]; intros t; [done|].
  rewrite string_rev_app_distr, string_app_assoc, IH.
  by apply skip_white_space_rev.
Qed.

(** A name that lowers to "name", with white space before and after it:
    stripping gives the name back. *)
Lemma strip_padded_name (pre core post : string) :
  white pre → white post → lower core = "name" →
  strip (pre +:+ core +:+ post) = core.
Proof.
  intros Hpre Hpost Hcore.
  assert (∀ rest, lstrip (core +:+ rest) = core +:+ rest) as Hl.
  { intros rest. destruct core as [|c1 core]; [discriminate Hcore|].
    simpl in Hcore. injection Hcore as Hc1 _.
    destruct (lower_char_letter c1 "n" ltac:(set_solver) Hc1) as [-> | ->];
      reflexivity. }
  pose proof (lower_name_strip core Hcore) as Hstrip.
  unfold strip in Hstrip |- *.
  rewrite <- (string_app_nil_r core), Hl, string_app_nil_r in Hstrip.
  by rewrite lstrip_white, Hl, rstrip_white.
Qed.

Lemma placeholder_not_name (n : nat) : lower ("Column_" +:+ pretty n) ≠ "name".
Proof. rewrite lower_app. simpl. discriminate. Qed.

(** ** TableMutator: adding columns *)

(** What the renaming loop returns is free, and it is the name it started
    from or the first free suffixed name from [k] on. *)
Lemma unique_name_sound (cols : list string) (original : string) :
  ∀ fuel name k r,
    unique_name cols original name k fuel = Some r →
    (r ∉ cols) ∧
    (r = name ∨
     (∃ j, (k ≤ j)%nat ∧ r = suffixed original j ∧ name ∈ cols ∧
           (∀ i, (k ≤ i < j)%nat → suffixed original i ∈ cols))).
Proof.
  induction fuel as [|fuel IH]; intros name k r; simpl.
  - case_decide; [done|]. intros [= <-]. split; [done|by left].
  - case_decide as Hin; [|intros [= <-]; split; [done|by left]].
    intros Hr. apply IH in Hr as [Hfree Hr]. split; [done|]. right.
    destruct Hr as [->|(j & Hj & -> & Hk & Hbelow)].
    + exists k. repeat split; [lia|done|]. intros i ?. lia.
    + exists j. repeat split; [lia|done|].
      intros i Hi. destruct (decide (i = k)) as [->|]; [done|].
      apply Hbelow. lia.
Qed.

(** The loop ends: the names already tried are distinct labels of the table,
    so it cannot try more names than the table has labels. *)
Lemma unique_name_total (cols : list string) (original : string) :
  ∀ fuel name k tried,
    NoDup tried →
    (∀ x, x ∈ tried → x ∈ cols) →
    name ∉ tried →
    (∀ j, (k ≤ j)%nat →
       (suffixed original j ∉ tried) ∧ (suffixed original j ≠ name)) →
    (length cols ≤ length tried + fuel)%nat →
    is_Some (unique_name cols original name k fuel).
Proof.
  induction fuel as [|fuel IH]; intros name k tried Hnd Hsub Hname Hfresh Hlen;
    simpl; case_decide as Hin; try by eexists.
  - exfalso.
    assert (length (name :: tried) ≤ length cols)%nat as Hle.
    { apply submseteq_length, NoDup_submseteq.
      - by apply NoDup_cons.
      - intros x [->|Hx]%elem_of_cons; auto. }
    simpl in Hle. lia.
  - apply (IH _ _ (name :: tried)).
    + by apply NoDup_cons.
    + intros x [->|Hx]%elem_of_cons; auto.
    + apply not_elem_of_cons. split; [apply Hfresh; lia|apply Hfresh; lia].
    + intros j Hj. split.
      * apply not_elem_of_cons. split; [apply Hfresh; lia|apply Hfresh; lia].
      * intros Heq. apply suffixed_inj in Heq. lia.
    + simpl. lia.
Qed.

Lemma unique_name_free (cols : list string) (original name : string)
    (k fuel : nat) :
  name ∉ cols → unique_name cols original name k fuel = Some name.
Proof. intros Hn. destruct fuel; simpl; by case_decide. Qed.

Lemma unique_name_resolved (cols : list string) (name : string) :
  ∃ r, unique_name cols name name 2 (length cols) = Some r ∧
       resolved cols name r ∧ r ∉ cols.
Proof.
  destruct (unique_name_total cols name (length cols) name 2 []) as [r Hr].
  - apply NoDup_nil_2.
  - intros x Hx. by apply elem_of_nil in Hx.
  - apply not_elem_of_nil.
  - intros j _. split; [apply not_elem_of_nil|apply suffixed_ne].
  - simpl. lia.
  - exists r. split; [done|].
    apply unique_name_sound in Hr as [Hfree Hr]. split; [|done].
    destruct Hr as [->|(j & Hj & -> & Hin & Hbelow)].
    + by apply resolved_free.
    + by apply resolved_suffix.
Qed.

Lemma batch_origin cols reqs added :
  batch cols reqs added →
  Forall (λ r, ∃ o, o ∈ reqs ∧ (r = o ∨ ∃ k, r = suffixed o k)) added.
Proof.
  induction 1 as [|cols o os r rs Hr _ IH]; [done|].
  apply Forall_cons. split.
  - exists o. split; [apply elem_of_cons; by left|].
    destruct Hr; [by left|right; by eexists].
  - eapply Forall_impl; [exact IH|]. simpl.
    intros x (o' & Ho' & Hx). exists o'. split; [|done].
    apply elem_of_cons. by right.
Qed.

Lemma batch_length cols reqs added :
  batch cols reqs added → length added = length reqs.
Proof. induction 1; simpl; [done|]. by f_equal. Qed.

Lemma resolved_fresh cols original r : resolved cols original r → r ∉ cols.
Proof. by destruct 1. Qed.

(** The names a batch adds are distinct, and none of them is a label that
    was there before. *)
Lemma batch_fresh cols reqs added :
  batch cols reqs added → NoDup added ∧ (∀ a, a ∈ added → a ∉ cols).
Proof.
  induction 1 as [|cols o os r rs Hr _ [IHnd IHfresh]].
  - split; [apply NoDup_nil_2|]. intros a Ha. by apply elem_of_nil in Ha.
  - apply resolved_fresh in Hr. split.
    + apply NoDup_cons. split; [|done].
      intros Hin. apply (IHfresh r Hin). apply elem_of_app. right.
      by apply list_elem_of_singleton.
    + intros a [->|Ha]%elem_of_cons; [done|].
      intros Hin. apply (IHfresh a Ha). apply elem_of_app. by left.
Qed.

Section AddColumns.
Context `{NumericLib}.

Lemma add_blank_column_names df name :
  name ∉ names df → names (add_blank_column df name) = names df ++ [name].
Proof. intros Hn. by apply assign_column_names_fresh. Qed.

Lemma add_blank_column_old df name col :
  name ∉ names df → col ∈ names df →
  get_column (add_blank_column df name) col = get_column df col.
Proof.
  intros Hn Hc. unfold get_column, add_blank_column, set_column. simpl.
  rewrite lookup_column_assign. case_decide; [by subst|done].
Qed.

(** The loop never runs out of fuel; it keeps the row labels and the
    existing columns, and appends the requested names, each resolved in
    turn. *)
Lemma add_columns_loop_batch (reqs : list string) :
  ∀ df,
    ∃ df' added,
      add_columns_loop df reqs = Some df' ∧
      index df' = index df ∧
      names df' = names df ++ added ∧
      batch (names df) reqs added ∧
      (∀ col, col ∈ names df → get_column df' col = get_column df col).
Proof.
  induction reqs as [|name rest IH]; intros df; simpl.
  - exists df, []. rewrite app_nil_r. repeat split; try done. constructor.
  - destruct (unique_name_resolved (names df) name) as (r & Hr & Hres & Hfree).
    rewrite Hr.
    destruct (IH (add_blank_column df r)) as (df' & added & Hl & Hi & Hn & Hb & Hold).
    rewrite add_blank_column_names in Hn, Hb by done.
    exists df', (r :: added). split; [done|]. split; [done|].
    split; [by rewrite Hn, <- app_assoc|].
    split; [by econstructor|].
    intros col Hcol. rewrite Hold.
    + by apply add_blank_column_old.
    + rewrite add_blank_column_names by done. apply elem_of_app. by left.
Qed.

Lemma requested_name_not_name df input :
  lower (requested_name df input) ≠ "name".
Proof.
  unfold requested_name. case_decide as Hn.
  - apply placeholder_not_name.
  - intros Hl. apply Hn. by rewrite lower_name_strip.
Qed.

Lemma requested_name_placeholder df input :
  lower input = "name" →
  requested_name df input = "Column_" +:+ pretty (length (names df) + 1)%nat.
Proof.
  intros Hl. unfold requested_name.
  rewrite decide_True; [done|]. by rewrite lower_name_strip.
Qed.

(** The legacy filter leaves no label that lowers to "name", and keeps the
    labels distinct. *)
Lemma drop_legacy_columns_names df :
  Forall (λ c, lower c ≠ "name") (names (drop_legacy_columns df)) ∧
  (NoDup (names df) → NoDup (names (drop_legacy_columns df))).
Proof.
  unfold names, drop_legacy_columns. simpl. split.
  - apply Forall_forall. intros c Hc.
    apply list_elem_of_fmap in Hc as ([n s] & -> & Hin).
    apply list_elem_of_filter in Hin as [Hleg _]. simpl in *.
    unfold is_legacy_name in Hleg. apply bool_decide_eq_false in Hleg.
    intros Heq. apply Hleg. rewrite Heq. set_solver.
  - generalize (columns df). intros cols. induction cols as [|[n s] cols IH]; simpl.
    + done.
    + intros [Hn Hnd]%NoDup_cons. rewrite filter_cons. simpl.
      case_decide; [|by apply IH]. simpl. apply NoDup_cons. split; [|by apply IH].
      intros Hin. apply Hn.
      apply list_elem_of_fmap in Hin as ([n' s'] & -> & Hin).
      apply list_elem_of_filter in Hin as [_ Hin].
      apply list_elem_of_fmap. by exists (n', s').
Qed.

(** C3. Adding columns always returns a table: the existing columns first,
    then one column per request in request order. The added labels are
    distinct from one another and from the existing ones, so a table with
    distinct labels keeps distinct labels; no added label lowers to "name",
    so a table without such a label (what the legacy filter leaves) has
    none afterwards. A request that lowers to "name" is replaced by
    [Column_<count+1>], the count being that of the table before the batch,
    and so is one that lowers to "name" once the white space around it is
    stripped (a name that lowers to "name" between two runs of white-space
    characters), while any other request is kept as typed;
    every request is then resolved to its own name when free and otherwise
    to the first free of [name_2], [name_3], ..., against the existing
    labels and those added before it. Adding "A", "A", "Name" to the empty
    table gives the labels "A", "A_2", "Column_1". *)
Theorem add_columns_unique_names (df : DataFrame) (inputs : list string) :
  ∃ df' added,
    add_columns df inputs = Some df' ∧
    names df' = names df ++ added ∧
    length added = length inputs ∧
    NoDup added ∧
    (∀ a, a ∈ added → a ∉ names df) ∧
    (NoDup (names df) → NoDup (names df')) ∧
    Forall (λ c, lower c ≠ "name") added ∧
    (Forall (λ c, lower c ≠ "name") (names df) →
     Forall (λ c, lower c ≠ "name") (names df')) ∧
    (∀ input, lower input = "name" →
       requested_name df input =
       "Column_" +:+ pretty (length (names df) + 1)%nat) ∧
    (∀ input, lower (strip input) = "name" →
       requested_name df input =
       "Column_" +:+ pretty (length (names df) + 1)%nat) ∧
    (∀ pre core post, white pre → white post → lower core = "name" →
       requested_name df (pre +:+ core +:+ post) =
       "Column_" +:+ pretty (length (names df) + 1)%nat) ∧
    (∀ input, lower (strip input) ≠ "name" →
       requested_name df input = input) ∧
    batch (names df) (requested_name df <$> inputs) added ∧
    names <$> add_columns empty_frame ["A"; "A"; "Name"] =
      Some ["A"; "A_2"; "Column_1"].
Proof.
  destruct (add_columns_loop_batch (col_names df inputs) df)
    as (df' & added & Hl & _ & Hn & Hb & _).
  destruct (batch_fresh _ _ _ Hb) as [Hnd Hfresh].
  assert (Forall (λ c, lower c ≠ "name") added) as Hadded.
  { pose proof (batch_origin _ _ _ Hb) as Ho.
    eapply Forall_impl; [exact Ho|]. simpl.
    intros r (o & Ho' & Hr).
    apply list_elem_of_fmap in Ho' as (input & -> & _).
    destruct Hr as [->|[k ->]].
    - apply requested_name_not_name.
    - apply suffixed_not_name. }
  exists df', added. split; [done|]. split; [done|].
  split.
  { pose proof (batch_length _ _ _ Hb) as Hlen. unfold col_names in Hlen.
    by rewrite Hlen, length_fmap. }
  split; [done|]. split; [done|]. split.
  { intros Hnd0. rewrite Hn. apply NoDup_app. repeat split; [done| |done].
    intros x Hx Hx'. by apply (Hfresh x). }
  split; [done|]. split.
  { intros Hno. rewrite Hn. by apply Forall_app. }
  split; [apply requested_name_placeholder|].
  split. { intros input Hin. unfold requested_name. by rewrite decide_True. }
  split.
  { intros pre core post Hpre Hpost Hcore. unfold requested_name.
    rewrite decide_True; [done|]. by rewrite strip_padded_name. }
  split. { intros input Hin. unfold requested_name. by rewrite decide_False. }
  split; [done|].
  reflexivity.
Qed.

(** C10 (as amended). Names are compared exactly. Take a table with a
    column [a] and a requested name [b] that is equal to [a] once lowered
    and is not "name" once stripped and lowered. Add Columns appends one
    column. When [b] is not itself the label of a column, the new column is
    named [b], with no suffix, so that the result has the two columns [a]
    and [b], different but equal once lowered. When [b] is itself the label
    of a column, the new column is named with the first free of [b_2],
    [b_3], ..., whatever other spellings the table has. *)
Theorem add_columns_case_sensitive (df : DataFrame) (a b : string) :
  a ∈ names df →
  lower a = lower b →
  lower (strip b) ≠ "name" →
  ∃ df' r,
    add_columns df [b] = Some df' ∧
    names df' = names df ++ [r] ∧
    (b ∉ names df → r = b ∧ a ≠ b ∧ a ∈ names df' ∧ b ∈ names df') ∧
    (b ∈ names df →
     ∃ k, (2 ≤ k)%nat ∧ r = suffixed b k ∧ r ≠ b ∧ (r ∉ names df) ∧
          ∀ i, (2 ≤ i < k)%nat → suffixed b i ∈ names df).
Proof.
  intros Ha Hcase Hname. unfold add_columns, col_names. simpl.
  assert (requested_name df b = b) as ->.
  { unfold requested_name. by rewrite decide_False. }
  destruct (unique_name_resolved (names df) b) as (r & Hr & Hres & Hfree).
  rewrite Hr. exists (add_blank_column df r), r. split; [done|].
  assert (names (add_blank_column df r) = names df ++ [r]) as Hn.
  { by apply add_blank_column_names. }
  split; [done|]. split.
  - intros Hb. destruct Hres as [_|k Hk Hin _ _]; [|done].
    split; [done|]. split; [by intros ->|]. rewrite Hn.
    split; apply elem_of_app; [by left|right].
    by apply list_elem_of_singleton.
  - intros Hb. destruct Hres as [Hout|k Hk Hin Hbelow Hnew]; [done|].
    exists k. split; [done|]. split; [done|].
    split; [apply suffixed_ne|]. by split.
Qed.

End AddColumns.

(** ** TableMutator: adding rows *)

Section AddRows.
Context `{NumericLib}.

Lemma absent_not_None_replicate (vs : list cell) :
  forallb is_absent vs = true → CNone ∉ vs →
  vs = replicate (length vs) CNaN.
Proof.
  induction vs as [|c vs IH]; [done|]. simpl.
  intros [Hc Hvs]%andb_true_iff [Hne Hnone]%not_elem_of_cons.
  rewrite <- IH by done. by destruct c.
Qed.

Lemma join_units_mjoin (pairs : list (string * (Series * Series))) :
  mjoin (join_units pairs) = pairs.
Proof.
  induction pairs as [|p rest IH]; [done|]. simpl.
  destruct (join_units rest) as [|[|q unit] others]; simpl in *.
  - by f_equal.
  - by f_equal.
  - destruct (same_blocks p q); simpl; by f_equal.
Qed.

Lemma all_na_elem (part : list Series) (s : Series) :
  all_na part = true → s ∈ part →
  can_hold_na (sdtype s) = true ∧ forallb is_absent (svalues s) = true.
Proof.
  induction part as [|x part IH]; intros Ha Hs; [by apply elem_of_nil in Hs|].
  simpl in Ha. apply andb_true_iff in Ha as [Hx Hpart].
  apply elem_of_cons in Hs as [->|Hs]; [by apply andb_true_iff in Hx|].
  by apply IH.
Qed.

Lemma na_fill_NaN (d : dtype) (part : list Series) :
  Forall (λ s, CNone ∉ svalues s) part → na_fill d part = CNaN.
Proof.
  intros Hnone. destruct part as [|s part]; [done|].
  apply Forall_cons in Hnone as [Hs _]. unfold na_fill.
  destruct (sdtype s), (svalues s) as [|[] ?], d; try done.
  all: exfalso; apply Hs, elem_of_cons; by left.
Qed.

(** One column of a table as the reader builds it, joined with [n] rows of
    [None]: its values, then [n] missing values. *)
Lemma concat_pair_blank (m : nat) (pa pb : list Series) (sa : Series) :
  sa ∈ pa →
  Forall (λ s, CNone ∉ svalues s) pa →
  pb ≠ [] →
  Forall (λ s, s = mkSeries object_ (replicate (S m) CNone)) pb →
  ∃ v, is_absent v = true ∧
       svalues (concat_pair pa pb sa (mkSeries object_ (replicate (S m) CNone)))
       = svalues sa ++ replicate (S m) v.
Proof.
  intros Hsa Hnone Hpb Hblank.
  assert (∀ k, forallb is_absent (replicate k (@CNone H)) = true) as Hrep.
  { induction k; simpl; done. }
  assert (all_na pb = true) as Hnb.
  { clear Hpb. induction pb as [|s pb IH]; [done|].
    apply Forall_cons in Hblank as [-> Hblank]. simpl.
    rewrite Hrep. simpl. by apply IH. }
  assert (∀ d, na_fill d pa = CNaN) as Hfa.
  { intros d. by apply na_fill_NaN. }
  assert (∀ d, na_fill d pb = if decide (d = object_) then CNone else CNaN)
    as Hfb.
  { destruct pb as [|s pb']; [done|].
    apply Forall_cons in Hblank as [-> _]. by intros []. }
  assert (all_na pa = true →
          can_hold_na (sdtype sa) = true ∧
          replicate (length (svalues sa)) (@CNaN H) = svalues sa) as Hna.
  { intros Ha. destruct (all_na_elem pa sa Ha Hsa) as [Hhold Habs].
    split; [done|]. symmetry. apply absent_not_None_replicate; [done|].
    rewrite Forall_forall in Hnone. by apply Hnone. }
  unfold concat_pair. cbn [sdtype svalues]. rewrite Hnb, !Hfa, !Hfb.
  rewrite length_replicate.
  destruct (all_na pa) eqn:Hpa.
  - destruct (Hna eq_refl) as [Hhold ->].
    destruct (sdtype sa); try discriminate Hhold; simpl.
    + by exists CNone.
    + by exists CNone.
  - destruct (sdtype sa); simpl.
    + by exists CNone.
    + by exists CNaN.
    + by exists CNone.
    + by exists CNone.
Qed.

Lemma lookup_column_const (l : list string) (v : Series) (c : string) :
  c ∈ l → lookup_column ((λ c, (c, v)) <$> l) c = Some v.
Proof.
  induction l as [|x l IH]; intros Hin; simpl.
  - by apply elem_of_nil in Hin.
  - case_decide; [done|]. apply IH.
    apply elem_of_cons in Hin as [->|]; done.
Qed.

Lemma filter_all_out {A} (P : A → Prop) `{∀ x, Decision (P x)} (l : list A) :
  (∀ x, x ∈ l → ¬ P x) → filter P l = [].
Proof.
  induction l as [|x l IH]; intros Hl; [done|].
  rewrite filter_cons, decide_False.
  - apply IH. intros y Hy. apply Hl, elem_of_cons. by right.
  - apply Hl, elem_of_cons. by left.
Qed.

Lemma blanks_nrows (df : DataFrame) (m : nat) : nrows (blanks df (S m)) = S m.
Proof.
  unfold nrows, blanks, range. cbn [index].
  by rewrite length_fmap, length_seq.
Qed.

Lemma blanks_get_column (df : DataFrame) (m : nat) (c : string) :
  c ∈ names df →
  get_column (blanks df (S m)) c = Some (mkSeries object_ (replicate (S m) CNone)).
Proof. intros Hc. unfold get_column, blanks. cbn [columns]. by apply lookup_column_const. Qed.

(** Every column of the table is paired with a column of [None]. *)
Lemma paired_blanks (df : DataFrame) (m : nat) :
  paired df (blanks df (S m))
  = (λ c, (c.1, (c.2, mkSeries object_ (replicate (S m) CNone)))) <$> columns df.
Proof.
  unfold paired.
  assert (∀ cols : list (string * Series),
    (∀ c, c ∈ cols → c.1 ∈ names df) →
    omap (λ c, sb ← get_column (blanks df (S m)) c.1; Some (c.1, (c.2, sb))) cols
    = (λ c, (c.1, (c.2, mkSeries object_ (replicate (S m) CNone)))) <$> cols)
    as Hgen.
  { induction cols as [|c cols IH]; intros Hin; [done|].
    cbn [omap list_omap].
    rewrite blanks_get_column by (apply Hin, elem_of_cons; by left).
    cbn [mbind option_bind]. rewrite fmap_cons.
    f_equal. apply IH. intros c' Hc'. apply Hin, elem_of_cons. by right. }
  apply Hgen. intros c Hc. apply list_elem_of_fmap. by exists c.
Qed.

(** The units of such pairs, joined: every column with [n] missing values
    after its own. *)
Lemma concat_units_appended (m : nat) (pairs : list (string * (Series * Series))) :
  Forall (λ p, (CNone ∉ svalues p.2.1) ∧
               p.2.2 = mkSeries object_ (replicate (S m) CNone)) pairs →
  Forall2 (λ p c', appended (S m) (p.1, p.2.1) c')
    pairs (mjoin (concat_unit <$> join_units pairs)).
Proof.
  intros Hpairs. rewrite <- (join_units_mjoin pairs) in Hpairs at 1.
  rewrite <- (join_units_mjoin pairs) at 1.
  induction (join_units pairs) as [|unit others IH]; [constructor|].
  simpl in *. apply Forall_app in Hpairs as [Hunit Hothers].
  apply Forall2_app; [|by apply IH].
  unfold concat_unit. apply Forall2_fmap_r, Forall_Forall2_diag, Forall_forall.
  intros p Hp. split; [done|]. cbn [fst snd].
  rewrite Forall_forall in Hunit. destruct (Hunit p Hp) as [_ Hb].
  rewrite Hb. apply concat_pair_blank.
  - apply list_elem_of_fmap. by exists p.
  - apply Forall_fmap, Forall_forall. intros q Hq. by apply Hunit.
  - destruct unit; [by apply elem_of_nil in Hp|done].
  - apply Forall_fmap, Forall_forall. intros q Hq. by apply Hunit.
Qed.

Lemma blanks_shape (df : DataFrame) (m : nat) :
  shapeless (blanks df (S m)) = false.
Proof. unfold shapeless. by rewrite blanks_nrows. Qed.

Lemma shapeless_inv (df : DataFrame) :
  shapeless df = true → nrows df = 0%nat ∧ columns df = [].
Proof.
  unfold shapeless. intros [Hr Hc]%andb_true_iff.
  by apply bool_decide_eq_true in Hr, Hc.
Qed.

(** The index after Add Rows. *)
Lemma add_rows_index (df : DataFrame) (n : nat) :
  (1 ≤ n)%nat → index (add_rows df n) = range (nrows df + n).
Proof.
  intros Hn. destruct n as [|m]; [lia|].
  unfold add_rows, concat_ignore_index. rewrite blanks_shape.
  destruct (shapeless df) eqn:Hshape; cbn [index]; rewrite blanks_nrows.
  - apply shapeless_inv in Hshape as [-> _]. done.
  - done.
Qed.

(** The columns after Add Rows: every column of the table, with [n] missing
    values appended. *)
Lemma add_rows_columns (df : DataFrame) (n : nat) :
  frame_ok df → (1 ≤ n)%nat →
  Forall2 (appended n) (columns df) (columns (add_rows df n)).
Proof.
  intros [Hnd Hcols] Hn. destruct n as [|m]; [lia|].
  unfold add_rows, concat_ignore_index. rewrite blanks_shape.
  destruct (shapeless df) eqn:Hshape; cbn [columns].
  - apply shapeless_inv in Hshape as [_ Hc].
    unfold blanks, names. cbn [columns]. rewrite Hc. constructor.
  - rewrite paired_blanks.
    match goal with
    | |- Forall2 _ _ (mjoin (_ <$> join_units ?pairs)) =>
        pose proof (concat_units_appended m pairs) as Hunits
    end.
    rewrite Forall2_fmap_l in Hunits.
    eapply Forall2_impl; [apply Hunits|].
    + apply Forall_fmap, Forall_forall. intros c Hc. cbn [fst snd].
      split; [|done].
      rewrite Forall_forall in Hcols. by apply (Hcols c Hc).
    + intros [c s] c' Happ. exact Happ.
Qed.

(** What [appended] gives for the labels, the lookups and the cells. *)
Lemma appended_names (n : nat) (l l' : list (string * Series)) :
  Forall2 (appended n) l l' → l'.*1 = l.*1.
Proof.
  induction 1 as [|c c' l l' [Hc _] _ IH]; [done|].
  rewrite !fmap_cons. by rewrite Hc, IH.
Qed.

Lemma appended_lookup (n : nat) (l l' : list (string * Series)) name s :
  Forall2 (appended n) l l' →
  NoDup l.*1 →
  (name, s) ∈ l →
  ∃ s', lookup_column l' name = Some s' ∧ appended n (name, s) (name, s').
Proof.
  induction 1 as [|[c x] [c' x'] l l' Hc _ IH]; intros Hnd Hin.
  - by apply elem_of_nil in Hin.
  - simpl in Hnd. apply NoDup_cons in Hnd as [Hout Hnd].
    pose proof Hc as [Hlabel Hvals]. simpl in Hlabel. subst c'.
    simpl. apply elem_of_cons in Hin as [Heq|Hin].
    + injection Heq as -> ->. rewrite decide_True by done. by exists x'.
    + rewrite decide_False; [by apply IH|].
      intros ->. apply Hout. apply list_elem_of_fmap. by exists (name, s).
Qed.

Lemma appended_fmap_ext {B} (n : nat) (f g : Series → B)
    (l l' : list (string * Series)) :
  Forall2 (appended n) l l' →
  Forall (λ c, ∀ c', appended n c c' → f c'.2 = g c.2) l →
  (λ c, f c.2) <$> l' = (λ c, g c.2) <$> l.
Proof.
  induction 1 as [|c c' l l' Hc _ IH]; intros Hl; [done|].
  apply Forall_cons in Hl as [Hhd Hl]. rewrite !fmap_cons.
  f_equal; [by apply Hhd|by apply IH].
Qed.

(** C8. Add Rows on a table as the reader builds it, for [n] at least one:
    the row count grows by exactly [n], the labels stay, the first rows are
    the original rows cell for cell, every column is its old values followed
    by [n] cells, and every cell of the [n] appended rows is a missing value
    (so neither a number nor a text, empty or not). *)
Theorem add_rows_appends_blank_rows (df : DataFrame) (n : nat) :
  frame_ok df →
  (1 ≤ n)%nat →
  nrows (add_rows df n) = (nrows df + n)%nat ∧
  index (add_rows df n) = range (nrows df + n) ∧
  names (add_rows df n) = names df ∧
  take (nrows df) (rows (add_rows df n)) = rows df ∧
  (∀ name s, (name, s) ∈ columns df →
     ∃ s', get_column (add_rows df n) name = Some s' ∧
           take (nrows df) (svalues s') = svalues s ∧
           length (drop (nrows df) (svalues s')) = n ∧
           Forall (λ c, is_absent c = true) (drop (nrows df) (svalues s'))) ∧
  (∀ i, (nrows df ≤ i < nrows df + n)%nat →
     Forall (λ oc, ∃ c, oc = Some c ∧ is_absent c = true ∧
                        is_number c = false ∧ is_text c = false)
       (row (add_rows df n) i)).
Proof.
  intros Hok Hn. pose proof (add_rows_columns df n Hok Hn) as Hcols.
  pose proof (add_rows_index df n Hn) as Hindex.
  destruct Hok as [Hnd Hlen].
  assert (nrows (add_rows df n) = (nrows df + n)%nat) as Hrows.
  { unfold nrows at 1. rewrite Hindex. unfold range.
    by rewrite length_fmap, length_seq. }
  split; [done|]. split; [done|].
  split; [by apply (appended_names n)|].
  split.
  { unfold rows. rewrite Hrows, <- fmap_take, take_seq.
    replace (nrows df `min` (nrows df + n))%nat with (nrows df) by lia.
    apply Forall_fmap_ext, Forall_forall. intros i Hi.
    apply elem_of_seq in Hi. unfold row.
    apply (appended_fmap_ext n (λ s, svalues s !! i) (λ s, svalues s !! i));
      [done|].
    eapply Forall_impl; [exact Hlen|]. cbn beta.
    intros c [Hl _] c' (_ & v & _ & ->).
    apply lookup_app_l. lia. }
  split.
  { intros name s Hin.
    destruct (appended_lookup n _ _ name s Hcols Hnd Hin)
      as (s' & Hs' & _ & v & Hv & Hvals).
    cbn [snd] in Hvals. exists s'. split; [done|]. rewrite Hvals.
    rewrite Forall_forall in Hlen. destruct (Hlen (name, s) Hin) as [Hl _].
    cbn [snd] in Hl.
    rewrite take_app_length', drop_app_length' by done.
    split; [done|]. split; [apply length_replicate|].
    by apply Forall_replicate. }
  intros i Hi. unfold row. apply Forall_fmap.
  eapply Forall2_Forall_r; [exact Hcols|].
  eapply Forall_impl; [exact Hlen|]. cbn beta.
  intros c [Hl _] c' (_ & v & Hv & Hvals). cbn [compose].
  exists v. rewrite Hvals. split.
  { rewrite lookup_app_r by lia. apply lookup_replicate_2. lia. }
  split; [done|]. by destruct v.
Qed.

End AddRows.

(** ** TableMutator: deleting rows *)

Lemma filter_fmap_comm {A B} (f : A → B) (P : B → Prop)
    `{∀ x, Decision (P x)} (l : list A) :
  filter P (f <$> l) = f <$> filter (λ x, P (f x)) l.
Proof.
  induction l as [|x l IH]; [done|].
  rewrite fmap_cons, !filter_cons. case_decide; [|done].
  by rewrite fmap_cons, IH.
Qed.

Lemma elem_of_range (n : nat) (l : Z) :
  l ∈ range n ↔ (0 ≤ l < Z.of_nat n)%Z.
Proof.
  unfold range. rewrite list_elem_of_fmap. split.
  - intros (i & -> & Hi). apply elem_of_seq in Hi. lia.
  - intros Hl. exists (Z.to_nat l). split; [lia|]. apply elem_of_seq. lia.
Qed.

Lemma range_length (n : nat) : length (range n) = n.
Proof. unfold range. by rewrite length_fmap, length_seq. Qed.

Lemma kept_positions_lt (n : nat) (indices : list Z) :
  Forall (λ i, (i < n)%nat) (kept_positions n indices).
Proof.
  apply Forall_forall. intros i Hi.
  apply list_elem_of_filter in Hi as [_ Hi]. apply elem_of_seq in Hi. lia.
Qed.

(** The number of kept positions: the rows, less the distinct listed
    labels. *)
Lemma kept_positions_length (n : nat) (indices : list Z) :
  Forall (λ l, (0 ≤ l < Z.of_nat n)%Z) indices →
  length (kept_positions n indices) = (n - length (remove_dups indices))%nat.
Proof.
  intros Hin. unfold kept_positions.
  pose proof (filter_app_complement (λ i, Z.of_nat i ∉ indices) (seq 0 n)) as Hp.
  apply Permutation_length in Hp. rewrite length_app, length_seq in Hp.
  assert (length (filter (λ i, ¬ (Z.of_nat i ∉ indices)) (seq 0 n))
          = length (remove_dups indices)) as Hd; [|lia].
  rewrite <- (length_fmap Z.of_nat). apply Permutation_length.
  apply NoDup_Permutation.
  - apply NoDup_fmap; [apply _|]. apply NoDup_filter, NoDup_seq.
  - apply NoDup_remove_dups.
  - intros x. rewrite elem_of_remove_dups, list_elem_of_fmap. split.
    + intros (i & -> & Hi). apply list_elem_of_filter in Hi as [Hi _].
      by apply dec_stable in Hi.
    + intros Hx. rewrite Forall_forall in Hin. specialize (Hin x Hx).
      exists (Z.to_nat x). split; [lia|]. apply list_elem_of_filter.
      split; [|apply elem_of_seq; lia].
      intros Hn. apply Hn. by replace (Z.of_nat (Z.to_nat x)) with x by lia.
Qed.

Section DeleteRows.
Context `{NumericLib}.

Lemma values_at_lookup (vs : list cell) (kept : list nat) (j : nat) :
  Forall (λ i, (i < length vs)%nat) kept →
  values_at vs kept !! j = kept !! j ≫= (λ i, vs !! i).
Proof.
  unfold values_at. revert j.
  induction kept as [|k kept IH]; intros j Hk; [done|].
  apply Forall_cons in Hk as [Hk Hkept]. simpl.
  destruct (lookup_lt_is_Some_2 vs k Hk) as [v Hv]. rewrite Hv. simpl.
  destruct j as [|j]; simpl; [done|]. by apply IH.
Qed.

Lemma values_at_length (vs : list cell) (kept : list nat) :
  Forall (λ i, (i < length vs)%nat) kept →
  length (values_at vs kept) = length kept.
Proof.
  unfold values_at. induction kept as [|k kept IH]; intros Hk; [done|].
  apply Forall_cons in Hk as [Hk Hkept]. simpl.
  destruct (lookup_lt_is_Some_2 vs k Hk) as [v Hv]. rewrite Hv. simpl.
  f_equal. by apply IH.
Qed.

(** Dropping by label under a range index keeps the values at the kept
    positions. *)
Lemma drop_values_from (labels : list Z) (vs : list cell) (start : nat) :
  (filter (λ p, p.1 ∉ labels)
     (zip (Z.of_nat <$> seq start (length vs)) vs)).*2
  = omap (λ i, vs !! (i - start)%nat)
      (filter (λ i, Z.of_nat i ∉ labels) (seq start (length vs))).
Proof.
  revert start. induction vs as [|v vs IH]; intros start; [done|].
  simpl. rewrite !filter_cons. simpl.
  assert (omap (λ i, (v :: vs) !! (i - start)%nat)
            (filter (λ i, Z.of_nat i ∉ labels) (seq (S start) (length vs)))
          = omap (λ i, vs !! (i - S start)%nat)
            (filter (λ i, Z.of_nat i ∉ labels) (seq (S start) (length vs))))
    as Hrest.
  { apply list_omap_ext, Forall2_same_length_lookup. split; [done|].
    intros i x y Hx Hy. simplify_eq.
    apply list_elem_of_lookup_2, list_elem_of_filter in Hx as [_ Hx].
    apply elem_of_seq in Hx.
    replace (x - start)%nat with (S (x - S start)) by lia. done. }
  case_decide.
  - simpl. rewrite Nat.sub_diag. simpl. f_equal.
    etrans; [apply IH|]. symmetry. exact Hrest.
  - etrans; [apply IH|]. symmetry. exact Hrest.
Qed.

Lemma drop_values_range (labels : list Z) (vs : list cell) :
  (filter (λ p, p.1 ∉ labels) (zip (range (length vs)) vs)).*2
  = values_at vs (kept_positions (length vs) labels).
Proof.
  unfold range, values_at, kept_positions. rewrite drop_values_from.
  apply list_omap_ext, Forall2_same_length_lookup. split; [done|].
  intros i x y Hx Hy. simplify_eq. by rewrite Nat.sub_0_r.
Qed.

(** Delete rows on a view whose row labels are 0, 1, ... in order (the
    view as it is loaded) and whose columns are full. When every listed
    label is in range, [delete_rows] returns a table with the same column
    labels whose rows, in order, are the original rows at the positions not
    listed, whose index is the range of its own length, and whose row count
    is the original one less the number of distinct listed labels, hence
    less the number of labels when they are distinct (as a multiselect
    gives them); when some listed label is out of range, it raises
    [KeyError] and returns no table. *)
Theorem delete_rows_removes_listed_rows (df : DataFrame) (indices : list Z) :
  index df = range (nrows df) →
  Forall (λ c, length (svalues c.2) = nrows df) (columns df) →
  (Forall (λ l, (0 ≤ l < Z.of_nat (nrows df))%Z) indices →
   ∃ df', delete_rows df indices = Ret df' ∧
          names df' = names df ∧
          rows df' = row df <$> kept_positions (nrows df) indices ∧
          index df' = range (nrows df') ∧
          nrows df' = (nrows df - length (remove_dups indices))%nat ∧
          (NoDup indices → nrows df' = (nrows df - length indices)%nat)) ∧
  (¬ Forall (λ l, (0 ≤ l < Z.of_nat (nrows df))%Z) indices →
   ∃ msg, delete_rows df indices = Raise (KeyError msg)).
Proof.
  intros Hindex Hcols.
  assert (Forall (λ l, l ∈ index df) indices ↔
          Forall (λ l, (0 ≤ l < Z.of_nat (nrows df))%Z) indices) as Hrange.
  { rewrite Hindex. apply Forall_iff. intros l. apply elem_of_range. }
  split.
  - intros Hin. unfold delete_rows, drop_index.
    rewrite decide_True by (by apply Hrange).
    set (kept := kept_positions (nrows df) indices).
    assert (filter (λ l, l ∉ indices) (index df) = Z.of_nat <$> kept) as Hidx.
    { rewrite Hindex. unfold range. by rewrite filter_fmap_comm. }
    eexists. split; [done|].
    assert (length kept = (nrows df - length (remove_dups indices))%nat) as Hlen.
    { by apply kept_positions_length. }
    split.
    { unfold names, reset_index. simpl. rewrite <- list_fmap_compose.
      apply list_fmap_ext. by intros ? [??]. }
    assert (∀ m, nrows (reset_index m) = nrows m) as Hreset.
    { intros m. unfold nrows, reset_index. simpl. apply range_length. }
    split.
    { unfold rows. rewrite Hreset. unfold nrows at 1. simpl.
      rewrite Hidx, length_fmap.
      apply list_eq. intros j. rewrite !list_lookup_fmap.
      destruct (kept !! j) as [k|] eqn:Hk; simpl.
      - rewrite lookup_seq_lt by (by apply lookup_lt_Some in Hk). simpl.
        f_equal. unfold row, reset_index. simpl.
        rewrite <- list_fmap_compose.
        apply Forall_fmap_ext, Forall_forall. intros [c s] Hc. simpl.
        rewrite Forall_forall in Hcols. specialize (Hcols (c, s) Hc).
        simpl in Hcols. rewrite Hindex, <- Hcols, drop_values_range.
        rewrite values_at_lookup by apply kept_positions_lt.
        fold kept. rewrite Hcols. fold kept. by rewrite Hk.
      - apply lookup_ge_None in Hk.
        rewrite lookup_seq_ge by lia. done. }
    split.
    { by rewrite Hreset. }
    assert (nrows (reset_index
              (mkFrame (filter (λ l, l ∉ indices) (index df))
                 (prod_map id
                    (λ s, mkSeries (sdtype s)
                       (filter (λ p, p.1 ∉ indices)
                          (zip (index df) (svalues s))).*2)
                    <$> columns df)))
            = (nrows df - length (remove_dups indices))%nat) as Hn.
    { rewrite Hreset. unfold nrows at 1. simpl.
      by rewrite Hidx, length_fmap. }
    split; [done|].
    intros Hnd. rewrite Hn. f_equal. apply Permutation_length.
    apply NoDup_Permutation; [apply NoDup_remove_dups|done|].
    intros x. apply elem_of_remove_dups.
  - intros Hout. unfold delete_rows, drop_index.
    rewrite decide_False; [by eexists|]. intros Hl. by apply Hout, Hrange.
Qed.

End DeleteRows.

(** ** Storage: loading, creating, saving *)

Section Storage.
Context `{ExcelCodec}.

Ltac run := unfold create_excel, save_table_handler, delete_rows_handler,
  safe_read_excel, safe_write_excel, try_except, read_excel, to_excel,
  path_exists, stat_size, st_toast, st_warning, st_error, st_info,
  st_balloons, st_rerun, show, raise, lift, mbind, M_bind, mret, M_ret;
  simpl.

Lemma string_length_zero (s : string) : String.length s = 0%nat ↔ s = "".
Proof. destruct s; simpl; split; intros; done. Qed.

(** What [safe_write_excel] does: the file is replaced and a toast shown,
    or, when the storage refuses, an error is shown and no file changes. It
    never raises. *)
Lemma safe_write_excel_run (path : string) (df : DataFrame) (w : world) :
  safe_write_excel path df w =
  if decide (path ∈ locked w)
  then (Ret (), mkWorld (files w) (locked w)
                  (ui w ++ [Error ("Failed to save: " +:+
                                   exn_str (PermissionError path))]))
  else (Ret (), mkWorld (<[path := to_excel_bytes df]> (files w)) (locked w)
                  (ui w ++ [Toast "Saved successfully ✅"])).
Proof. run. by case_decide. Qed.

(** C7. [safe_read_excel] never raises and never touches the files. A path
    that does not exist or a zero-length file gives the empty frame (no
    columns, no rows) and no message; a file that cannot be read gives the
    empty frame and a warning; a readable file gives its frame. *)
Theorem safe_read_excel_never_raises (path : string) (w : world) :
  ∃ df w',
    safe_read_excel path w = (Ret df, w') ∧
    files w' = files w ∧ locked w' = locked w ∧
    (files w !! path = None ∨ files w !! path = Some "" →
     df = empty_frame ∧ names df = [] ∧ nrows df = 0%nat ∧ ui w' = ui w) ∧
    (∀ bytes msg,
       files w !! path = Some bytes → bytes ≠ "" →
       read_excel_bytes bytes = inl msg →
       df = empty_frame ∧
       ui w' = ui w ++ [Warning ("Failed to read file: " +:+ msg)]) ∧
    (∀ bytes table,
       files w !! path = Some bytes → bytes ≠ "" →
       read_excel_bytes bytes = inr table →
       df = table ∧ ui w' = ui w).
Proof.
  run. destruct (files w !! path) as [bytes|] eqn:Hf; simpl; rewrite ?Hf; simpl.
  - destruct (decide (String.length bytes = 0%nat)) as [Hz|Hz].
    + rewrite bool_decide_eq_true_2 by done.
      apply string_length_zero in Hz as ->.
      eexists _, _. split; [done|]. do 2 (split; [done|]).
      split; [done|]. split; intros b m Hb Hne; by simplify_eq.
    + rewrite bool_decide_eq_false_2 by done. rewrite ?Hf.
      assert (bytes ≠ "") as Hne by (by rewrite <- string_length_zero).
      destruct (read_excel_bytes bytes) as [msg|table] eqn:Hr; simpl;
        (eexists _, _; split; [done|]; do 2 (split; [done|]);
         split; [intros [?|?]; simplify_eq; congruence|];
         split; intros b m Hb Hb' Hm; injection Hb as <-;
         rewrite Hr in Hm; by simplify_eq).
  - eexists _, _. split; [done|]. do 2 (split; [done|]).
    split; [done|]. split; intros b m Hb; by simplify_eq.
Qed.


(** The Save Table button stores the reconciled frame. *)
Lemma save_table_handler_reconciles (path : string)
    (original_dtypes : list (string * dtype)) (edited_df restored : DataFrame)
    (w : world) :
  restore_dtypes original_dtypes edited_df = Ret restored →
  path ∉ locked w →
  ∃ w', save_table_handler path original_dtypes edited_df w = (Ret (), w') ∧
        files w' = <[path := to_excel_bytes restored]> (files w).
Proof.
  intros Hr Hfree. run. rewrite Hr. rewrite decide_False by done. simpl.
  by eexists.
Qed.

(** The Delete Selected Rows button stores the view without its selected
    rows as it is: [restore_dtypes] is not on this path. *)
Lemma delete_rows_handler_stores_view (path : string)
    (edited_df new_df : DataFrame) (rows_to_delete : list Z) (w : world) :
  frame_empty edited_df = false →
  rows_to_delete ≠ [] →
  delete_rows edited_df rows_to_delete = Ret new_df →
  path ∉ locked w →
  ∃ w', delete_rows_handler path edited_df rows_to_delete w
        = (Raise RerunException, w') ∧
        files w' = <[path := to_excel_bytes new_df]> (files w).
Proof.
  intros He Hsel Hd Hfree. run. rewrite He.
  rewrite bool_decide_eq_false_2 by done. rewrite Hd.
  rewrite decide_False by done. simpl. by eexists.
Qed.

End Storage.

(** ** More on the reconciler *)

Section ReconcilerMore.
Context `{NumericLib}.

Lemma series_astype_str_idemp (s : Series) :
  series_astype_str (series_astype_str s) = series_astype_str s.
Proof.
  unfold series_astype_str. simpl. f_equal.
  rewrite <- list_fmap_compose. by apply list_fmap_ext.
Qed.

(** The editable view of an editable view is the view itself: text stays
    the text it is. *)
Theorem to_editable_idempotent (df : DataFrame) :
  to_editable (to_editable df) = to_editable df.
Proof.
  unfold to_editable. simpl. f_equal. rewrite <- list_fmap_compose.
  apply list_fmap_ext. intros i [n s] _. simpl. unfold prod_map. simpl.
  f_equal. apply series_astype_str_idemp.
Qed.

Lemma set_column_same (df : DataFrame) (col : string) (s : Series) :
  get_column df col = Some s → set_column df col s = df.
Proof.
  destruct df as [idx cols]. unfold get_column, set_column. simpl.
  intros Hs. f_equal. induction cols as [|[n s0] cols IH]; simpl in *; [done|].
  case_decide; [by simplify_eq|]. f_equal. by apply IH.
Qed.

Lemma to_numeric_fixed (s : Series) :
  is_numeric_dtype (sdtype s) = true → to_numeric s = s.
Proof. intros Hs. unfold to_numeric. by rewrite Hs. Qed.

Lemma set_column_names_in (df : DataFrame) (col : string) (s : Series) :
  col ∈ names df → names (set_column df col s) = names df.
Proof. intros Hc. by apply assign_column_names_in. Qed.

(** A run of [restore_dtypes] that returns has met every column it was to
    convert. *)
Lemma restore_dtypes_Ret_columns original_dtypes :
  ∀ view r, restore_dtypes original_dtypes view = Ret r →
    ∀ col d, (col, d) ∈ original_dtypes → is_numeric_dtype d = true →
             col ∈ names view.
Proof.
  induction original_dtypes as [|[c0 d0] rest IH]; intros view r Hr col d Hin Hd.
  - by apply elem_of_nil in Hin.
  - simpl in Hr. destruct (is_numeric_dtype d0) eqn:Hd0.
    + destruct (get_column view c0) as [s|] eqn:Hs; [|done].
      assert (c0 ∈ names view) as Hc0.
      { destruct (decide (c0 ∈ names view)) as [|Hn]; [done|].
        apply lookup_column_None in Hn. unfold get_column in Hs. congruence. }
      apply elem_of_cons in Hin as [Heq|Hin]; [by simplify_eq|].
      rewrite <- (set_column_names_in view c0 (to_numeric s)) by done.
      by eapply IH.
    + apply elem_of_cons in Hin as [Heq|Hin]; [simplify_eq; congruence|].
      by eapply IH.
Qed.

Lemma restore_dtypes_fixed original_dtypes (r : DataFrame) :
  (∀ col d, (col, d) ∈ original_dtypes → is_numeric_dtype d = true →
     ∃ s, get_column r col = Some s ∧ is_numeric_dtype (sdtype s) = true) →
  restore_dtypes original_dtypes r = Ret r.
Proof.
  induction original_dtypes as [|[c0 d0] rest IH]; intros Hall; simpl; [done|].
  destruct (is_numeric_dtype d0) eqn:Hd0.
  - destruct (Hall c0 d0) as (s & Hs & Hnum); [apply elem_of_cons; by left|done|].
    rewrite Hs, to_numeric_fixed, set_column_same by done.
    apply IH. intros col d Hin. apply Hall, elem_of_cons. by right.
  - apply IH. intros col d Hin. apply Hall, elem_of_cons. by right.
Qed.

(** Reconciling a reconciled frame changes nothing. *)
Theorem restore_dtypes_idempotent (original_dtypes : list (string * dtype))
    (view restored : DataFrame) :
  restore_dtypes original_dtypes view = Ret restored →
  restore_dtypes original_dtypes restored = Ret restored.
Proof.
  intros Hr.
  pose proof (restore_dtypes_Ret_columns _ _ _ Hr) as Hcols.
  destruct (restore_dtypes_columns original_dtypes view Hcols)
    as (df' & Hr' & _ & _ & Hget).
  rewrite Hr in Hr'. injection Hr' as <-.
  apply restore_dtypes_fixed. intros col d Hin Hd.
  assert (recorded_numeric original_dtypes col = true) as Hrec.
  { apply existsb_exists. exists (col, d). split; [by apply list_elem_of_In|].
    simpl. by rewrite bool_decide_eq_true_2, Hd. }
  rewrite Hget, Hrec.
  destruct (get_column view col) as [s|] eqn:Hs.
  - exists (to_numeric s). split; [done|apply to_numeric_numeric].
  - apply lookup_column_None in Hs. destruct Hs. by eapply Hcols.
Qed.

(** When the view lacks a column that was recorded numeric,
    [restore_dtypes] raises [KeyError] for a recorded-numeric label the view
    does not have. *)
Lemma restore_dtypes_missing original_dtypes :
  ∀ view col d,
    (col, d) ∈ original_dtypes → is_numeric_dtype d = true →
    col ∉ names view →
    ∃ c, restore_dtypes original_dtypes view = Raise (KeyError c) ∧
         (c ∉ names view) ∧ recorded_numeric original_dtypes c = true.
Proof.
  induction original_dtypes as [|[c0 d0] rest IH]; intros view col d Hin Hd Hcol.
  - by apply elem_of_nil in Hin.
  - simpl. destruct (is_numeric_dtype d0) eqn:Hd0.
    + destruct (get_column view c0) as [s|] eqn:Hs.
      * assert (c0 ∈ names view) as Hc0.
        { destruct (decide (c0 ∈ names view)) as [|Hn]; [done|].
          apply lookup_column_None in Hn. unfold get_column in Hs. congruence. }
        apply elem_of_cons in Hin as [Heq|Hin]; [by simplify_eq|].
        destruct (IH (set_column view c0 (to_numeric s)) col d Hin Hd)
          as (c & Hr & Hc & Hrec).
        { by rewrite set_column_names_in. }
        exists c. split; [done|]. rewrite set_column_names_in in Hc by done.
        split; [done|]. by rewrite Hrec, orb_true_r.
      * exists c0. split; [done|]. split; [by apply lookup_column_None|].
        by rewrite bool_decide_eq_true_2.
    + apply elem_of_cons in Hin as [Heq|Hin]; [simplify_eq; congruence|].
      destruct (IH view col d Hin Hd Hcol) as (c & Hr & Hc & Hrec).
      exists c. split; [done|]. split; [done|]. by rewrite Hrec, orb_true_r.
Qed.

(** A number column whose numbers print to text that parses back to them
    comes back from the round trip with the same values, when "nan" is not
    read as a number. *)
Theorem roundtrip_numeric_column (df : DataFrame) (name : string) (s : Series) :
  NoDup (names df) →
  (name, s) ∈ columns df →
  is_numeric_dtype (sdtype s) = true →
  parse_numeric "nan" = None →
  Forall (λ c, c = CNaN ∨
               ∃ x b, c = CNum x ∧
                      parse_numeric (num_str (sdtype s) x) = Some (b, x))
    (svalues s) →
  ∃ df' s', restore_dtypes (dtypes df) (to_editable df) = Ret df' ∧
            get_column df' name = Some s' ∧
            is_numeric_dtype (sdtype s') = true ∧
            svalues s' = svalues s.
Proof.
  intros Hnd Hin Hs Hnan Hvals.
  destruct (restore_dtypes_columns (dtypes df) (to_editable df))
    as (df' & Hr & _ & _ & Hc).
  { intros col d Hcol _. rewrite to_editable_names.
    unfold dtypes in Hcol.
    apply list_elem_of_fmap in Hcol as ([n s0] & Heq & Hin0).
    simpl in Heq. simplify_eq. apply list_elem_of_fmap. by exists (n, s0). }
  exists df', (to_numeric (series_astype_str s)).
  split; [done|]. split.
  { rewrite Hc, (recorded_numeric_dtypes df name s), Hs by done.
    rewrite to_editable_get_column. unfold get_column.
    by rewrite (lookup_column_NoDup _ _ s). }
  split; [apply to_numeric_numeric|].
  unfold to_numeric, series_astype_str. simpl.
  rewrite <- list_fmap_compose.
  etrans; [|apply list_fmap_id]. apply Forall_fmap_ext.
  eapply Forall_impl; [exact Hvals|]. simpl.
  intros c [->|(x & b & -> & Hx)]; simpl.
  - by rewrite Hnan.
  - by rewrite Hx.
Qed.

End ReconcilerMore.

(** ** More on the mutators *)

Section MutatorsMore.
Context `{NumericLib}.

Lemma lookup_column_filter (P : string → Prop)
    (HP : ∀ c, Decision (P c)) (HQ : ∀ x : string * Series, Decision (P x.1))
    (cols : list (string * Series)) (c : string) :
  lookup_column (@filter _ _ _ (λ x, P x.1) HQ cols) c =
  if HP c then lookup_column cols c else None.
Proof.
  induction cols as [|[n s] cols IH]; simpl.
  - by destruct (HP c).
  - rewrite filter_cons. simpl. destruct (HQ (n, s)) as [Hn|Hn]; simpl in *.
    + destruct (decide (n = c)) as [->|Hne]; [|done].
      by destruct (HP c).
    + rewrite IH. destruct (decide (n = c)) as [->|Hne]; [|done].
      by destruct (HP c).
Qed.

Lemma names_filter (P : string → Prop)
    (HP : ∀ c, Decision (P c)) (HQ : ∀ x : string * Series, Decision (P x.1))
    (cols : list (string * Series)) :
  (@filter _ _ _ (λ x, P x.1) HQ cols).*1 = @filter _ _ _ P HP cols.*1.
Proof.
  induction cols as [|[n s] cols IH]; [done|].
  rewrite fmap_cons, !filter_cons. simpl.
  destruct (HQ (n, s)) as [Hn|Hn], (HP n) as [Hn'|Hn']; simpl in *; try done.
  f_equal. exact IH.
Qed.

Lemma filter_all_in {A} (P : A → Prop) `{∀ x, Decision (P x)} (l : list A) :
  (∀ x, x ∈ l → P x) → filter P l = l.
Proof.
  induction l as [|x l IH]; intros Hl; [done|].
  rewrite filter_cons, decide_True.
  - f_equal. apply IH. intros y Hy. apply Hl, elem_of_cons. by right.
  - apply Hl, elem_of_cons. by left.
Qed.

(** Deleting columns keeps the rows and the other columns as they are, in
    order; a listed label is gone; listing labels the table does not have
    changes nothing. *)
Theorem delete_columns_drops_listed (df : DataFrame) (cols_to_drop : list string) :
  index (delete_columns df cols_to_drop) = index df ∧
  names (delete_columns df cols_to_drop)
    = filter (λ c, c ∉ cols_to_drop) (names df) ∧
  (∀ c, c ∉ cols_to_drop →
     get_column (delete_columns df cols_to_drop) c = get_column df c) ∧
  (∀ c, c ∈ cols_to_drop →
     get_column (delete_columns df cols_to_drop) c = None) ∧
  ((∀ c, c ∈ cols_to_drop → c ∉ names df) →
   delete_columns df cols_to_drop = df).
Proof.
  split; [done|]. split.
  { unfold names, delete_columns. simpl.
    apply (names_filter (λ c, c ∉ cols_to_drop)). }
  split.
  { intros c Hc. unfold get_column, delete_columns. simpl.
    rewrite (lookup_column_filter (λ c, c ∉ cols_to_drop) _).
    by case_match. }
  split.
  { intros c Hc. unfold get_column, delete_columns. simpl.
    rewrite (lookup_column_filter (λ c, c ∉ cols_to_drop) _).
    by case_match. }
  intros Hnone. destruct df as [idx cols]. unfold delete_columns. simpl.
  f_equal. apply filter_all_in. intros [n s] Hin Hn. simpl in Hn.
  apply (Hnone n Hn). apply list_elem_of_fmap. by exists (n, s).
Qed.

(** The legacy filter drops exactly the columns whose label lowers to "name"
    or "row name": the others stay in order with their cells, the rows
    stay, and a second pass changes nothing. *)
Theorem drop_legacy_columns_filters (df : DataFrame) :
  index (drop_legacy_columns df) = index df ∧
  names (drop_legacy_columns df)
    = filter (λ c, lower c ≠ "name" ∧ lower c ≠ "row name") (names df) ∧
  (∀ c, lower c ≠ "name" → lower c ≠ "row name" →
     get_column (drop_legacy_columns df) c = get_column df c) ∧
  (∀ c, lower c = "name" ∨ lower c = "row name" →
     get_column (drop_legacy_columns df) c = None) ∧
  drop_legacy_columns (drop_legacy_columns df) = drop_legacy_columns df.
Proof.
  assert (∀ c, is_legacy_name c = false ↔
               lower c ≠ "name" ∧ lower c ≠ "row name") as Hleg.
  { intros c. unfold is_legacy_name. rewrite bool_decide_eq_false.
    rewrite !elem_of_cons, elem_of_nil. tauto. }
  split; [done|]. split.
  { unfold names, drop_legacy_columns. simpl.
    rewrite (names_filter (λ c, is_legacy_name c = false)
               (λ c, decide (is_legacy_name c = false))).
    apply list_filter_iff. intros c. apply Hleg. }
  split.
  { intros c H1 H2. unfold get_column, drop_legacy_columns. simpl.
    rewrite (lookup_column_filter (λ c, is_legacy_name c = false) _).
    match goal with |- context [if ?d then _ else _] => destruct d as [Hf|Hf] end;
      [done|]. destruct Hf. by apply Hleg. }
  split.
  { intros c Hc. unfold get_column, drop_legacy_columns. simpl.
    rewrite (lookup_column_filter (λ c, is_legacy_name c = false) _).
    match goal with |- context [if ?d then _ else _] => destruct d as [Hf|Hf] end;
      [|done]. apply Hleg in Hf. tauto. }
  unfold drop_legacy_columns. simpl. f_equal.
  apply filter_all_in. intros x Hx. by apply list_elem_of_filter in Hx as [? _].
Qed.

Lemma add_blank_column_nrows (df : DataFrame) (name : string) :
  nrows (add_blank_column df name) = nrows df.
Proof. done. Qed.

Lemma add_blank_column_new (df : DataFrame) (name : string) :
  get_column (add_blank_column df name) name
  = Some (mkSeries object_ (replicate (nrows df) CNone)).
Proof.
  unfold get_column, add_blank_column, set_column. simpl.
  rewrite lookup_column_assign. by rewrite decide_True.
Qed.

(** The loop leaves the rows and the existing columns alone, and every
    column it adds is an object column of [None], one per row. *)
Lemma add_columns_loop_blank (reqs : list string) :
  ∀ df, ∃ df',
    add_columns_loop df reqs = Some df' ∧
    index df' = index df ∧
    (∀ col, col ∈ names df → col ∈ names df' ∧
                             get_column df' col = get_column df col) ∧
    (∀ a, a ∈ names df' → a ∉ names df →
       get_column df' a = Some (mkSeries object_ (replicate (nrows df) CNone))).
Proof.
  induction reqs as [|name rest IH]; intros df; simpl.
  - exists df. repeat split; done.
  - destruct (unique_name_resolved (names df) name) as (r & Hr & _ & Hfree).
    rewrite Hr.
    destruct (IH (add_blank_column df r)) as (df' & Hl & Hi & Hold & Hnew).
    rewrite add_blank_column_names in Hold, Hnew by done.
    exists df'. split; [done|]. split; [done|]. split.
    + intros col Hcol.
      destruct (Hold col) as [Hin Hget]; [apply elem_of_app; by left|].
      split; [done|]. rewrite Hget. by apply add_blank_column_old.
    + intros a Ha Hna. destruct (decide (a = r)) as [->|Hne].
      * destruct (Hold r) as [_ Hget].
        { apply elem_of_app. right. by apply list_elem_of_singleton. }
        rewrite Hget. apply add_blank_column_new.
      * rewrite Hnew; [done|done|].
        rewrite elem_of_app, list_elem_of_singleton. tauto.
Qed.

(** Adding columns never touches what is there: the row labels and every
    existing column are unchanged, and every new column is an object column
    holding [None] in each row. *)
Theorem add_columns_new_columns_blank (df : DataFrame) (inputs : list string) :
  ∃ df', add_columns df inputs = Some df' ∧
         index df' = index df ∧
         (∀ col, col ∈ names df →
            col ∈ names df' ∧ get_column df' col = get_column df col) ∧
         (∀ a, a ∈ names df' → a ∉ names df →
            get_column df' a
            = Some (mkSeries object_ (replicate (nrows df) CNone))).
Proof. apply add_columns_loop_blank. Qed.

Lemma add_columns_loop_free (reqs : list string) :
  ∀ df, NoDup reqs → (∀ c, c ∈ reqs → c ∉ names df) →
    ∃ df', add_columns_loop df reqs = Some df' ∧
           names df' = names df ++ reqs.
Proof.
  induction reqs as [|name rest IH]; intros df Hnd Hfree; simpl.
  - exists df. by rewrite app_nil_r.
  - apply NoDup_cons in Hnd as [Hname Hnd].
    rewrite unique_name_free by (apply Hfree, elem_of_cons; by left).
    destruct (IH (add_blank_column df name) Hnd) as (df' & Hl & Hn).
    { intros c Hc. rewrite add_blank_column_names
        by (apply Hfree, elem_of_cons; by left).
      rewrite elem_of_app, list_elem_of_singleton. intros [Hin| ->].
      - by apply (Hfree c); [apply elem_of_cons; right|].
      - done. }
    exists df'. split; [done|].
    rewrite Hn, add_blank_column_names
      by (apply Hfree, elem_of_cons; by left).
    by rewrite <- app_assoc.
Qed.

(** Deleting columns and adding them back under the same names gives the
    same set of labels, the re-added ones last and in the order asked. *)
Theorem delete_then_add_restores_labels (df : DataFrame) (cols : list string) :
  NoDup (names df) →
  NoDup cols →
  (∀ c, c ∈ cols → c ∈ names df) →
  (∀ c, c ∈ cols → lower (strip c) ≠ "name") →
  ∃ df', add_columns (delete_columns df cols) cols = Some df' ∧
         names df' = filter (λ c, c ∉ cols) (names df) ++ cols ∧
         names df' ≡ₚ names df.
Proof.
  intros Hnd Hcols Hin Hname.
  assert (names (delete_columns df cols) = filter (λ c, c ∉ cols) (names df))
    as Hnames.
  { unfold names, delete_columns. simpl. apply (names_filter (λ c, c ∉ cols)). }
  assert (col_names (delete_columns df cols) cols = cols) as Hreq.
  { unfold col_names. etrans; [|apply list_fmap_id].
    apply Forall_fmap_ext, Forall_forall. intros c Hc.
    unfold requested_name. rewrite decide_False; [done|]. by apply Hname. }
  destruct (add_columns_loop_free cols (delete_columns df cols) Hcols)
    as (df' & Hl & Hn).
  { intros c Hc. rewrite Hnames. intros Hf.
    by apply list_elem_of_filter in Hf as [Hf _]. }
  exists df'. unfold add_columns. rewrite Hreq. split; [done|].
  rewrite Hn, Hnames. split; [done|].
  etrans; [|apply (filter_app_complement (λ c, c ∉ cols))].
  apply Permutation_app; [done|].
  apply NoDup_Permutation; [done|by apply NoDup_filter|].
  intros x. rewrite list_elem_of_filter. split.
  - intros Hx. split; [by intros Hn'|by apply Hin].
  - intros [Hx _]. by apply dec_stable in Hx.
Qed.

(** The rows that go depend on which labels are listed, not on their order
    or on repetitions. *)
Theorem delete_rows_same_labels (df : DataFrame) (l1 l2 : list Z) :
  (∀ x, x ∈ l1 ↔ x ∈ l2) →
  Forall (λ l, l ∈ index df) l1 →
  delete_rows df l1 = delete_rows df l2.
Proof.
  intros Hsame Hin.
  assert (Forall (λ l, l ∈ index df) l2) as Hin2.
  { rewrite Forall_forall in Hin |- *. intros x Hx. by apply Hin, Hsame. }
  unfold delete_rows, drop_index. rewrite !decide_True by done.
  f_equal. f_equal. f_equal.
  - apply list_filter_iff. intros x. by rewrite Hsame.
  - apply list_fmap_ext. intros i [n s] _. unfold prod_map. simpl.
    f_equal. f_equal. f_equal. apply list_filter_iff.
    intros x. by rewrite Hsame.
Qed.

(** Deleting every row leaves the columns in place, each with its label and
    dtype and no cell. *)
Theorem delete_rows_all (df : DataFrame) :
  delete_rows df (index df)
  = Ret (mkFrame []
           (prod_map id (λ s, mkSeries (sdtype s) []) <$> columns df)).
Proof.
  unfold delete_rows, drop_index.
  rewrite decide_True by (by apply Forall_forall).
  assert (filter (λ l, l ∉ index df) (index df) = []) as Hidx.
  { apply filter_all_out. intros x Hx Hn. done. }
  unfold reset_index, nrows. simpl. rewrite Hidx. simpl.
  f_equal. f_equal. apply list_fmap_ext. intros i [n s] _.
  unfold prod_map. simpl. f_equal. f_equal.
  rewrite filter_all_out; [done|].
  intros [l c] Hlc Hn. simpl in Hn. apply Hn.
  apply elem_of_zip_l in Hlc. done.
Qed.

Lemma kept_positions_appended (N n : nat) :
  kept_positions (N + n) (Z.of_nat <$> seq N n) = seq 0 N.
Proof.
  unfold kept_positions. rewrite seq_app, filter_app. simpl.
  rewrite filter_all_in, filter_all_out, app_nil_r; [done| |].
  - intros i Hi Hn. apply Hn. apply list_elem_of_fmap. by exists i.
  - intros i Hi Hn. apply elem_of_seq in Hi.
    apply list_elem_of_fmap in Hn as (j & Hj & Hjn).
    apply elem_of_seq in Hjn. lia.
Qed.

Lemma values_at_prefix (vs extra : list cell) :
  values_at (vs ++ extra) (seq 0 (length vs)) = vs.
Proof.
  unfold values_at. apply list_eq. intros i.
  destruct (decide (i < length vs)%nat) as [Hi|Hi].
  - pose proof (values_at_lookup (vs ++ extra) (seq 0 (length vs)) i) as Hl.
    unfold values_at in Hl. rewrite Hl.
    + rewrite lookup_seq_lt by done. simpl. by rewrite lookup_app_l.
    + apply Forall_forall. intros j Hj. apply elem_of_seq in Hj.
      rewrite length_app. lia.
  - rewrite (lookup_ge_None_2 vs) by lia.
    apply lookup_ge_None_2.
    pose proof (values_at_length (vs ++ extra) (seq 0 (length vs))) as Hlen.
    unfold values_at in Hlen. rewrite Hlen, length_seq; [lia|].
    apply Forall_forall. intros j Hj. apply elem_of_seq in Hj.
    rewrite length_app. lia.
Qed.

(** Adding rows and then deleting the rows just added gives back the rows
    the table had, cell for cell. *)
Theorem add_then_delete_rows (df : DataFrame) (n : nat) :
  frame_ok df →
  (1 ≤ n)%nat →
  ∃ df', delete_rows (add_rows df n) (Z.of_nat <$> seq (nrows df) n) = Ret df' ∧
         names df' = names df ∧
         nrows df' = nrows df ∧
         rows df' = rows df ∧
         (∀ name s, (name, s) ∈ columns df →
            ∃ s', get_column df' name = Some s' ∧ svalues s' = svalues s).
Proof.
  intros Hok Hn. pose proof (add_rows_columns df n Hok Hn) as Hcols.
  pose proof (add_rows_index df n Hn) as Hindex.
  destruct Hok as [Hnd Hlen].
  set (labels := Z.of_nat <$> seq (nrows df) n).
  generalize dependent (add_rows df n). intros ar Hcols Hindex.
  assert (Forall (λ l, l ∈ index ar) labels) as Hin.
  { rewrite Hindex. apply Forall_forall. intros l Hl.
    apply list_elem_of_fmap in Hl as (i & -> & Hi). apply elem_of_seq in Hi.
    apply elem_of_range. lia. }
  assert (filter (λ l, l ∉ labels) (index ar) = range (nrows df))
    as Hidx.
  { rewrite Hindex. unfold range. rewrite filter_fmap_comm.
    unfold labels. fold (kept_positions (nrows df + n) (Z.of_nat <$> seq (nrows df) n)).
    by rewrite kept_positions_appended. }
  assert (Forall (λ c, ∀ c', appended n c c' →
    (filter (λ p, p.1 ∉ labels) (zip (index ar) (svalues c'.2))).*2
    = svalues c.2) (columns df)) as Hvals.
  { eapply Forall_impl; [exact Hlen|]. cbn beta.
    intros c [Hl _] c' (_ & a & _ & Hext). rewrite Hext, Hindex.
    replace (nrows df + n)%nat with (length (svalues c.2 ++ replicate n a))
      by (rewrite length_app, length_replicate; lia).
    rewrite drop_values_range.
    rewrite length_app, length_replicate, Hl. unfold labels.
    rewrite kept_positions_appended, <- Hl. apply values_at_prefix. }
  unfold delete_rows, drop_index. rewrite decide_True by done.
  eexists. split; [done|].
  assert (∀ m, nrows (reset_index m) = nrows m) as Hreset.
  { intros m. unfold nrows, reset_index. simpl. apply range_length. }
  split.
  { unfold names, reset_index. cbn [columns]. rewrite <- list_fmap_compose.
    etrans; [|by apply (appended_names n)].
    apply list_fmap_ext. by intros ? [??]. }
  assert (nrows (reset_index
            (mkFrame (filter (λ l, l ∉ labels) (index ar))
               (prod_map id
                  (λ s, mkSeries (sdtype s)
                     (filter (λ p, p.1 ∉ labels)
                        (zip (index ar) (svalues s))).*2)
                  <$> columns ar))) = nrows df) as Hrows.
  { rewrite Hreset. unfold nrows at 1. simpl. by rewrite Hidx, range_length. }
  split; [done|]. split.
  { unfold rows. rewrite Hrows.
    apply Forall_fmap_ext, Forall_forall. intros i Hi.
    unfold row, reset_index. cbn [columns]. rewrite <- list_fmap_compose.
    etrans; [|apply (appended_fmap_ext n
      (λ s, (filter (λ p, p.1 ∉ labels) (zip (index ar) (svalues s))).*2 !! i)
      (λ s, svalues s !! i) _ _ Hcols)].
    - apply list_fmap_ext. by intros ? [??].
    - eapply Forall_impl; [exact Hvals|]. cbn beta.
      intros c Hc c' Happ. by rewrite (Hc c' Happ). }
  intros name s Hcs.
  destruct (appended_lookup n _ _ name s Hcols Hnd Hcs) as (s' & Hs' & Happ).
  eexists. split.
  { unfold get_column, reset_index. cbn [columns].
    rewrite lookup_column_fmap, Hs'. simpl. done. }
  rewrite Forall_forall in Hvals.
  exact (Hvals (name, s) Hcs (name, s') Happ).
Qed.

End MutatorsMore.

(** ** The data folder *)

Lemma strip_prefix_app (prefix rest : string) :
  strip_prefix prefix (prefix +:+ rest) = Some rest.
Proof.
  induction prefix as [|a prefix IH]; [done|].
  rewrite string_app_cons. simpl. by rewrite decide_True.
Qed.

Lemma strip_prefix_Some (prefix s rest : string) :
  strip_prefix prefix s = Some rest → s = prefix +:+ rest.
Proof.
  revert s. induction prefix as [|a prefix IH]; intros s; simpl.
  - by intros [= ->].
  - destruct s as [|b s]; [done|]. case_decide; [|done]. subst.
    intros Hs. rewrite string_app_cons. f_equal. by apply IH.
Qed.

Lemma entry_of_Some (folder path name : string) :
  entry_of folder path = Some name ↔
  path = joinpath folder name ∧ plain_name name = true.
Proof.
  unfold entry_of, joinpath. split.
  - destruct (strip_prefix (folder +:+ "/") path) as [n|] eqn:Hs; simpl; [|done].
    destruct (plain_name n) eqn:Hp; [|done]. intros [= <-].
    apply strip_prefix_Some in Hs. by rewrite Hs, string_app_assoc.
  - intros [-> Hp]. rewrite <- string_app_assoc, strip_prefix_app. simpl.
    by rewrite Hp.
Qed.

Lemma NoDup_omap_inj {A B} (f : A → option B) (l : list A) :
  (∀ x y z, f x = Some z → f y = Some z → x = y) →
  NoDup l → NoDup (omap f l).
Proof.
  intros Hinj. induction 1 as [|x l Hx Hnd IH]; simpl; [apply NoDup_nil_2|].
  destruct (f x) as [z|] eqn:Hz; [|done].
  apply NoDup_cons. split; [|done].
  intros Hin. apply list_elem_of_omap in Hin as (y & Hy & Hfy).
  by rewrite (Hinj x y z Hz Hfy) in Hx.
Qed.

(** The entries of the folder: distinct names, one per file that sits in
    it. *)
Lemma os_listdir_entries (folder : string) (w : world) :
  ∃ entries,
    os_listdir folder w = (Ret entries, w) ∧
    NoDup entries ∧
    ∀ name, name ∈ entries ↔
            plain_name name = true ∧ is_Some (files w !! joinpath folder name).
Proof.
  eexists. split; [done|]. split.
  - apply NoDup_omap_inj; [|apply NoDup_elements].
    intros x y z Hx Hy. apply entry_of_Some in Hx as [-> _].
    by apply entry_of_Some in Hy as [-> _].
  - intros name. rewrite list_elem_of_omap. split.
    + intros (path & Hin & He). apply entry_of_Some in He as [-> Hp].
      split; [done|]. by apply elem_of_dom, elem_of_elements.
    + intros [Hp Hin]. exists (joinpath folder name). split.
      * by apply elem_of_elements, elem_of_dom.
      * by apply entry_of_Some.
Qed.

Lemma list_excel_files_listing (folder : string) (w : world) :
  ∃ listing,
    list_excel_files folder w = (Ret listing, w) ∧
    Sorted String.le listing ∧
    NoDup listing ∧
    ∀ name, name ∈ listing ↔
            plain_name name = true ∧
            is_Some (files w !! joinpath folder name) ∧
            endswith (lower name) ".xlsx" = true.
Proof.
  destruct (os_listdir_entries folder w) as (entries & Hl & Hnd & Hin).
  unfold list_excel_files, mbind, M_bind, mret, M_ret. rewrite Hl.
  eexists. split; [done|]. unfold sorted. split.
  - apply Sorted_merge_sort. apply _.
  - split.
    + rewrite merge_sort_Permutation. by apply NoDup_filter.
    + intros name. rewrite merge_sort_Permutation, list_elem_of_filter, Hin.
      tauto.
Qed.

(** [list_excel_files] never raises and changes nothing. Its answer is in
    ascending order without repetition, and holds exactly the file names of
    the folder that end in ".xlsx" once lowered. *)
Theorem list_excel_files_sorted (folder : string) (w : world) :
  ∃ listing,
    list_excel_files folder w = (Ret listing, w) ∧
    Sorted String.le listing ∧
    NoDup listing ∧
    ∀ name, name ∈ listing ↔
            plain_name name = true ∧
            is_Some (files w !! joinpath folder name) ∧
            endswith (lower name) ".xlsx" = true.
Proof. apply list_excel_files_listing. Qed.

Section Folder.
Context `{ExcelCodec}.

Ltac run := unfold create_file_handler, delete_file_handler,
  delete_columns_handler, add_rows_handler, create_excel, save_table_handler,
  safe_read_excel, safe_write_excel, try_except, read_excel,
  to_excel, os_remove, path_exists, stat_size, st_toast, st_warning, st_error,
  st_info, st_balloons, st_rerun, show, raise, lift, mbind, M_bind, mret,
  M_ret; simpl.

Lemma safe_read_excel_readable (path bytes : string) (table : DataFrame)
    (w : world) :
  files w !! path = Some bytes → bytes ≠ "" →
  read_excel_bytes bytes = inr table →
  safe_read_excel path w = (Ret table, w).
Proof.
  intros Hf Hne Hr. run. repeat (rewrite Hf; simpl).
  rewrite bool_decide_eq_false_2 by (by rewrite string_length_zero).
  by rewrite Hf, Hr.
Qed.


(** [safe_write_excel] never raises and touches no other path. When the
    storage accepts, the file at the path becomes the encoding of the frame
    and the success toast is shown; when it refuses, no file changes and an
    error that starts with "Failed to save: " is shown. *)
Theorem safe_write_excel_never_raises (path : string) (df : DataFrame)
    (w : world) :
  ∃ w', safe_write_excel path df w = (Ret (), w') ∧
        locked w' = locked w ∧
        (∀ other, other ≠ path → files w' !! other = files w !! other) ∧
        (path ∉ locked w →
         files w' !! path = Some (to_excel_bytes df) ∧
         ui w' = ui w ++ [Toast "Saved successfully ✅"]) ∧
        (path ∈ locked w →
         files w' = files w ∧
         ∃ msg, ui w' = ui w ++ [Error ("Failed to save: " +:+ msg)]).
Proof.
  run. destruct (decide (path ∈ locked w)) as [Hl|Hl]; simpl.
  - eexists. split; [done|]. repeat split; try done. by eexists.
  - eexists. split; [done|]. split; [done|]. split.
    { intros other Hne. simpl. by rewrite lookup_insert_ne. }
    split; [|done]. intros _. simpl. by rewrite lookup_insert_eq.
Qed.

(** What was written is what is read: after [safe_write_excel] on a path
    the storage accepts, [safe_read_excel] on that path returns the frame the
    codec reads from the bytes it wrote, with no warning. *)
Theorem write_then_read (path : string) (df table : DataFrame) (w : world) :
  path ∉ locked w →
  to_excel_bytes df ≠ "" →
  read_excel_bytes (to_excel_bytes df) = inr table →
  ∃ w1, safe_write_excel path df w = (Ret (), w1) ∧
        safe_read_excel path w1 = (Ret table, w1).
Proof.
  intros Hl Hne Hread. unfold safe_write_excel, try_except, to_excel,
    st_toast, show, mbind, M_bind. rewrite decide_False by done.
  eexists. split; [done|].
  apply (safe_read_excel_readable _ (to_excel_bytes df)); [|done|done].
  apply lookup_insert_eq.
Qed.


(** A file created through the Create File button shows in the listing. *)
Theorem created_file_is_listed (folder new_name : string) (w : world) :
  plain_name new_name = true →
  endswith (lower new_name) ".xlsx" = true →
  joinpath folder new_name ∉ locked w →
  ∃ w' listing,
    create_file_handler folder new_name w = (Raise RerunException, w') ∧
    list_excel_files folder w' = (Ret listing, w') ∧
    new_name ∈ listing.
Proof.
  intros Hplain Hext Hl.
  assert (∃ w', create_file_handler folder new_name w
                = (Raise RerunException, w') ∧
                is_Some (files w' !! joinpath folder new_name))
    as (w' & Hrun & Hfile).
  { unfold create_file_handler. rewrite Hext. run.
    destruct (files w !! joinpath folder new_name) as [b|] eqn:Hf.
    - rewrite bool_decide_eq_true_2 by by eexists. simpl.
      eexists. split; [done|]. simpl. by rewrite Hf.
    - rewrite bool_decide_eq_false_2 by (by intros [??]). simpl.
      rewrite decide_False by done. simpl.
      eexists. split; [done|]. simpl. by rewrite lookup_insert_eq. }
  destruct (list_excel_files_listing folder w') as (listing & Hlist & _ & _ & Hin).
  exists w', listing. split; [done|]. split; [done|]. by apply Hin.
Qed.

(** The Delete Selected File button does nothing without a selected file
    and a ticked confirmation. Otherwise it removes the file, and only that
    file, shows the toast and reruns the script; when the file is not there
    or the storage refuses, nothing is removed, the error is shown and the
    script goes on. *)
Theorem delete_file_handler_removes (folder current_file : string)
    (confirm_del : bool) (w : world) :
  (current_file = none_label ∨ confirm_del = false →
   delete_file_handler folder current_file confirm_del w = (Ret (), w)) ∧
  (current_file ≠ none_label → confirm_del = true →
   is_Some (files w !! joinpath folder current_file) →
   joinpath folder current_file ∉ locked w →
   delete_file_handler folder current_file confirm_del w =
   (Raise RerunException,
    mkWorld (delete (joinpath folder current_file) (files w)) (locked w)
      (ui w ++ [Toast "File deleted 🗑️"]))) ∧
  (current_file ≠ none_label → confirm_del = true →
   files w !! joinpath folder current_file = None ∨
   joinpath folder current_file ∈ locked w →
   ∃ msg, delete_file_handler folder current_file confirm_del w =
          (Ret (), mkWorld (files w) (locked w)
                     (ui w ++ [Error ("Failed to delete file: " +:+ msg)]))).
Proof.
  split; [|split].
  - intros [-> | ->]; unfold delete_file_handler.
    + by rewrite bool_decide_eq_true_2.
    + by destruct (bool_decide _).
  - intros Hsel -> [b Hf] Hl. unfold delete_file_handler.
    rewrite bool_decide_eq_false_2 by done. run. rewrite Hf.
    rewrite decide_False by done. done.
  - intros Hsel -> Hcase. unfold delete_file_handler.
    rewrite bool_decide_eq_false_2 by done. run.
    destruct (files w !! joinpath folder current_file) as [b|] eqn:Hf.
    + destruct Hcase as [?|Hl]; [done|]. rewrite decide_True by done.
      simpl. by eexists.
    + simpl. by eexists.
Qed.

(** A deleted file is gone from the listing, and the other names stay. *)
Theorem deleted_file_is_unlisted (folder current_file : string) (w : world) :
  current_file ≠ none_label →
  is_Some (files w !! joinpath folder current_file) →
  joinpath folder current_file ∉ locked w →
  ∃ w' before after,
    delete_file_handler folder current_file true w = (Raise RerunException, w') ∧
    list_excel_files folder w = (Ret before, w) ∧
    list_excel_files folder w' = (Ret after, w') ∧
    (current_file ∉ after) ∧
    (∀ name, name ≠ current_file → name ∈ after ↔ name ∈ before).
Proof.
  intros Hsel [b Hf] Hl.
  destruct (list_excel_files_listing folder w) as (before & Hb & _ & _ & Hinb).
  set (w' := mkWorld (delete (joinpath folder current_file) (files w))
               (locked w) (ui w ++ [Toast "File deleted 🗑️"])).
  destruct (list_excel_files_listing folder w') as (after & Ha & _ & _ & Hina).
  exists w', before, after. split.
  { unfold delete_file_handler. rewrite bool_decide_eq_false_2 by done.
    run. rewrite Hf. by rewrite decide_False. }
  split; [done|]. split; [done|]. split.
  - intros Hin. apply Hina in Hin as (_ & [x Hx] & _). simpl in Hx.
    by rewrite lookup_delete_eq in Hx.
  - intros name Hne. rewrite Hina, Hinb. simpl.
    rewrite lookup_delete_ne; [done|].
    unfold joinpath. intros Heq. apply Hne.
    apply (inj (String.append folder)) in Heq.
    by apply (inj (String.append "/")) in Heq.
Qed.

(** Creating a file that was not there and deleting it again leaves the
    files as they were. *)
Theorem create_then_delete_file (folder new_name : string) (w : world) :
  plain_name new_name = true →
  endswith (lower new_name) ".xlsx" = true →
  files w !! joinpath folder new_name = None →
  joinpath folder new_name ∉ locked w →
  ∃ w1 w2,
    create_file_handler folder new_name w = (Raise RerunException, w1) ∧
    delete_file_handler folder new_name true w1 = (Raise RerunException, w2) ∧
    files w2 = files w.
Proof.
  intros _ Hext Hf Hl.
  assert (new_name ≠ none_label) as Hsel.
  { intros ->. by vm_compute in Hext. }
  eexists _, _. split.
  { unfold create_file_handler. rewrite Hext. run.
    rewrite bool_decide_eq_false_2 by (rewrite Hf; by intros [??]). simpl.
    rewrite decide_False by done. done. }
  split.
  { unfold delete_file_handler. rewrite bool_decide_eq_false_2 by done.
    run. rewrite lookup_insert_eq. rewrite decide_False by done. done. }
  simpl. by apply delete_insert_id.
Qed.

(** The Add Rows and Delete Selected Columns buttons always end the run with
    a rerun. The file becomes the encoding of the changed table when the
    storage accepts; when it refuses, no file changes and the error is shown,
    followed all the same by the balloons or by the "Columns deleted" toast.
    Delete Selected Columns with nothing selected does nothing. *)
Theorem mutation_handlers_rerun (path : string) (df : DataFrame) (n : nat)
    (cols_to_drop : list string) (w : world) :
  (path ∉ locked w →
   add_rows_handler path df n w =
   (Raise RerunException,
    mkWorld (<[path := to_excel_bytes (add_rows df n)]> (files w)) (locked w)
      (ui w ++ [Toast "Saved successfully ✅"; Balloons]))) ∧
  (path ∈ locked w →
   ∃ msg, add_rows_handler path df n w =
   (Raise RerunException,
    mkWorld (files w) (locked w) (ui w ++ [Error msg; Balloons]))) ∧
  (cols_to_drop = [] →
   delete_columns_handler path df cols_to_drop w = (Ret (), w)) ∧
  (cols_to_drop ≠ [] → path ∉ locked w →
   delete_columns_handler path df cols_to_drop w =
   (Raise RerunException,
    mkWorld (<[path := to_excel_bytes (delete_columns df cols_to_drop)]> (files w))
      (locked w)
      (ui w ++ [Toast "Saved successfully ✅"; Toast "Columns deleted 🗑️"]))) ∧
  (cols_to_drop ≠ [] → path ∈ locked w →
   ∃ msg, delete_columns_handler path df cols_to_drop w =
   (Raise RerunException,
    mkWorld (files w) (locked w)
      (ui w ++ [Error msg; Toast "Columns deleted 🗑️"]))).
Proof.
  split; [|split; [|split; [|split]]].
  - intros Hl. run. rewrite decide_False by done. simpl.
    by rewrite <- app_assoc.
  - intros Hl. run. rewrite decide_True by done. simpl.
    eexists. by rewrite <- app_assoc.
  - intros ->. done.
  - intros Hsel Hl. unfold delete_columns_handler.
    rewrite bool_decide_eq_false_2 by done. run.
    rewrite decide_False by done. simpl. by rewrite <- app_assoc.
  - intros Hsel Hl. unfold delete_columns_handler.
    rewrite bool_decide_eq_false_2 by done. run.
    rewrite decide_True by done. simpl. eexists. by rewrite <- app_assoc.
Qed.

(** When the view lacks a column that was recorded numeric, the Save Table
    button raises [KeyError] for such a label before anything is written or
    shown. *)
Theorem save_table_handler_missing_column (path : string)
    (original_dtypes : list (string * dtype)) (view : DataFrame)
    (col : string) (d : dtype) (w : world) :
  (col, d) ∈ original_dtypes →
  is_numeric_dtype d = true →
  col ∉ names view →
  ∃ c, save_table_handler path original_dtypes view w = (Raise (KeyError c), w) ∧
       (c ∉ names view) ∧ recorded_numeric original_dtypes c = true.
Proof.
  intros Hin Hd Hcol.
  destruct (restore_dtypes_missing original_dtypes view col d Hin Hd Hcol)
    as (c & Hr & Hc & Hrec).
  exists c. split; [|done]. run. by rewrite Hr.
Qed.

End Folder.

(** ** The model at work on the sample table *)

Import Sample.

Ltac by_computation :=
  match goal with
  | |- ?P => exact (bool_decide_unpack P I)
  end.

Example load_missing_file :
  safe_read_excel data_path no_files = (Ret empty_frame, no_files).
Proof. reflexivity. Qed.

Example load_stock_file :
  fst (safe_read_excel data_path stock_world) = Ret stock.
Proof. reflexivity. Qed.

Example load_corrupt_file :
  safe_read_excel data_path (mkWorld {[ data_path := "not a workbook" ]} ∅ [])
  = (Ret empty_frame,
     mkWorld {[ data_path := "not a workbook" ]} ∅
       [Warning ("Failed to read file: " +:+ unknown_format)]).
Proof. reflexivity. Qed.

Example create_then_load :
  ∃ w, create_excel data_path no_files = (Ret (), w) ∧
       fst (safe_read_excel data_path w) = Ret empty_frame ∧
       ui w = [Toast "Saved successfully ✅"; Balloons].
Proof. eexists. split; [reflexivity|]. split; reflexivity. Qed.

Example save_stores_numbers :
  ∃ w, save_table_handler data_path (dtypes stock) (to_editable stock)
         stock_world = (Ret (), w) ∧
       (read_excel_bytes <$> files w !! data_path) =
       Some (inr (mkFrame (range 3)
         [ ("Product", mkSeries object_ [CStr "bolt"; CStr "nut"; CStr "washer"]);
           ("Quantity", mkSeries int64 [CNum 10%Z; CNum 25%Z; CNum 7%Z]);
           ("Note", mkSeries object_ [CStr "ok"; CStr "nan"; CStr "low"]) ])).
Proof. eexists. split; [reflexivity|]. reflexivity. Qed.

(** C1 (the defect). The stock file opens as the stock table, whose column
    "Quantity" holds whole numbers and is recorded numeric. With the
    unedited view on screen and the second row selected,
    Delete Selected Rows stores the text view without that row: "Quantity"
    reaches the file as the texts "10" and "7". [restore_dtypes], which the
    Save Table button applies before it writes, would have given the numbers
    10 and 7, and a different file. *)
Theorem delete_rows_handler_writes_text_view :
  open_table data_path stock_world = (Ret stock, stock_world) ∧
  recorded_numeric (dtypes stock) "Quantity" = true ∧
  delete_rows (to_editable stock) [1%Z] = Ret stock_text_rows ∧
  (∃ w, delete_rows_handler data_path (to_editable stock) [1%Z] stock_world
        = (Raise RerunException, w) ∧
        files w !! data_path = Some (to_excel_bytes stock_text_rows) ∧
        ui w = [Toast "Saved successfully ✅"; Toast "Rows deleted 🗑️"; Balloons]) ∧
  get_column stock_text_rows "Quantity"
    = Some (mkSeries object_ [CStr "10"; CStr "7"]) ∧
  restore_dtypes (dtypes stock) stock_text_rows = Ret stock_typed_rows ∧
  get_column stock_typed_rows "Quantity"
    = Some (mkSeries int64 [CNum 10%Z; CNum 7%Z]) ∧
  to_excel_bytes stock_text_rows ≠ to_excel_bytes stock_typed_rows ∧
  (∃ w restored,
     restore_dtypes (dtypes stock) (to_editable stock) = Ret restored ∧
     save_table_handler data_path (dtypes stock) (to_editable stock) stock_world
     = (Ret (), w) ∧
     files w !! data_path = Some (to_excel_bytes restored) ∧
     get_column restored "Quantity"
     = Some (mkSeries int64 [CNum 10%Z; CNum 25%Z; CNum 7%Z])).
Proof.
  split; [reflexivity|]. split; [reflexivity|]. split; [reflexivity|].
  split. { eexists. split; [reflexivity|]. split; reflexivity. }
  split; [reflexivity|]. split; [reflexivity|].
  split; [reflexivity|]. split; [discriminate|].
  eexists _, _. split; [reflexivity|].
  split; [reflexivity|]. split; reflexivity.
Qed.

(** C2, as first stated, fails: the missing cell of the "Note" column
    becomes the text "nan", not an empty text. *)
Lemma to_editable_missing_cell_is_nan :
  (svalues <$> get_column stock "Note") = Some [CStr "ok"; CNaN; CStr "low"] ∧
  is_absent (CNaN : cell) = true ∧
  (svalues <$> get_column (to_editable stock) "Note")
    = Some [CStr "ok"; CStr "nan"; CStr "low"].
Proof. repeat split; reflexivity. Qed.

Lemma to_editable_cell_text_stock :
  (columns stock !! 2%nat
     = Some ("Note", mkSeries object_ [CStr "ok"; CNaN; CStr "low"]) ∧
   [CStr "ok"; CNaN; CStr "low"] !! 1%nat = Some (CNaN : cell)) ∧
  index (to_editable stock) = index stock ∧
  length (columns (to_editable stock)) = length (columns stock) ∧
  ∃ s', columns (to_editable stock) !! 2%nat = Some ("Note", s') ∧
        sdtype s' = object_ ∧
        length (svalues s') = 3%nat ∧
        svalues s' !! 1%nat = Some (CStr (cell_str object_ CNaN)) ∧
        ((CNaN : cell) = CNone → cell_str object_ CNaN = "None") ∧
        ((CNaN : cell) = CNaN → cell_str object_ CNaN = "nan") ∧
        (is_absent (CNaN : cell) = true → cell_str object_ CNaN ≠ "").
Proof.
  split; [split; reflexivity|].
  exact (to_editable_cell_text stock 2 1 "Note"
           (mkSeries object_ [CStr "ok"; CNaN; CStr "low"]) CNaN
           eq_refl eq_refl).
Defined.

(** C4, as first stated, fails: "Note" is a text column, yet after the round
    trip its missing cell is the text "nan". *)
Lemma roundtrip_changes_missing_cell :
  ∃ df', restore_dtypes (dtypes stock) (to_editable stock) = Ret df' ∧
         recorded_numeric (dtypes stock) "Note" = false ∧
         get_column stock "Note"
           = Some (mkSeries object_ [CStr "ok"; CNaN; CStr "low"]) ∧
         get_column df' "Note"
           = Some (mkSeries object_ [CStr "ok"; CStr "nan"; CStr "low"]) ∧
         get_column df' "Note" ≠ get_column stock "Note".
Proof.
  eexists. split; [reflexivity|].
  repeat split; try reflexivity. discriminate.
Qed.

Lemma roundtrip_non_numeric_columns_stock :
  (NoDup (names stock) ∧
   ("Product", mkSeries object_ [CStr "bolt"; CStr "nut"; CStr "washer"])
     ∈ columns stock ∧
   is_numeric_dtype object_ = false) ∧
  ∃ df', restore_dtypes (dtypes stock) (to_editable stock) = Ret df' ∧
         index df' = index stock ∧
         names df' = names stock ∧
         get_column df' "Product"
           = Some (series_astype_str
                     (mkSeries object_ [CStr "bolt"; CStr "nut"; CStr "washer"])) ∧
         (Forall (λ c, is_text c = true) [CStr "bolt"; CStr "nut"; CStr "washer"] →
          get_column df' "Product"
            = Some (mkSeries object_ [CStr "bolt"; CStr "nut"; CStr "washer"])).
Proof.
  assert (NoDup (names stock)) as Hnd by by_computation.
  assert (("Product", mkSeries object_ [CStr "bolt"; CStr "nut"; CStr "washer"])
            ∈ columns stock) as Hin by by_computation.
  split; [by repeat split|].
  exact (roundtrip_non_numeric_columns stock "Product" _ Hnd Hin eq_refl).
Defined.

Lemma restore_dtypes_coerces_edited_stock :
  (editable_view edited_stock ∧
   (∀ col d, (col, d) ∈ dtypes stock → is_numeric_dtype d = true →
             col ∈ names edited_stock) ∧
   get_column edited_stock "Quantity"
     = Some (mkSeries object_ [CStr "10"; CStr "abc"; CStr "7"])) ∧
  ∃ df', restore_dtypes (dtypes stock) edited_stock = Ret df' ∧
         index df' = index edited_stock ∧
         names df' = names edited_stock ∧
         (recorded_numeric (dtypes stock) "Quantity" = false →
          get_column df' "Quantity"
            = Some (mkSeries object_ [CStr "10"; CStr "abc"; CStr "7"])) ∧
         (recorded_numeric (dtypes stock) "Quantity" = true →
          ∃ s', get_column df' "Quantity" = Some s' ∧
                is_numeric_dtype (sdtype s') = true ∧
                length (svalues s') = 3%nat ∧
                ∀ i c, [CStr "10"; CStr "abc"; CStr "7"] !! i = Some c →
                  ∃ c', svalues s' !! i = Some c' ∧
                    (∀ t, c = CStr t →
                       match parse_numeric t with
                       | Some (_, x) => c' = CNum x
                       | None => c' = CNaN ∧ is_absent c' = true
                       end ∧ c' ≠ CStr t) ∧
                    (c = CNone → c' = CNaN)).
Proof.
  assert (editable_view edited_stock) as Hview
    by (unfold editable_view; by_computation).
  assert (∀ col d, (col, d) ∈ dtypes stock → is_numeric_dtype d = true →
                   col ∈ names edited_stock) as Hcols.
  { intros col d Hin _.
    assert (col ∈ (dtypes stock).*1) as Hcol.
    { apply list_elem_of_fmap. by exists (col, d). }
    exact Hcol. }
  split; [by repeat split|].
  exact (restore_dtypes_coerces (dtypes stock) edited_stock "Quantity" _
           Hview Hcols eq_refl).
Defined.

Example restore_dtypes_edited_stock :
  (λ df, get_column df "Quantity") <$>
    (match restore_dtypes (dtypes stock) edited_stock with
     | Ret df => Some df
     | Raise _ => None
     end)
  = Some (Some (mkSeries float64 [CNum 10%Z; CNaN; CNum 7%Z])).
Proof. reflexivity. Qed.

Example add_columns_stock :
  names <$> add_columns stock ["Note"; " name "; "note"; "Note"]
  = Some ["Product"; "Quantity"; "Note"; "Note_2"; "Column_4"; "note"; "Note_3"].
Proof. reflexivity. Qed.

Example add_columns_padded_name :
  names <$> add_columns letters [bytes [194; 160] +:+ "Name" +:+ bytes [226; 128; 137]]
  = Some ["A"; "Column_2"].
Proof. reflexivity. Qed.

Lemma add_columns_case_sensitive_letters :
  ("A" ∈ names letters ∧ lower "A" = lower "a" ∧
   lower (strip "a") ≠ "name") ∧
  ∃ df' r,
    add_columns letters ["a"] = Some df' ∧
    names df' = names letters ++ [r] ∧
    ("a" ∉ names letters →
     r = "a" ∧ "A" ≠ "a" ∧ "A" ∈ names df' ∧ "a" ∈ names df') ∧
    ("a" ∈ names letters →
     ∃ k, (2 ≤ k)%nat ∧ r = suffixed "a" k ∧ r ≠ "a" ∧ (r ∉ names letters) ∧
          ∀ i, (2 ≤ i < k)%nat → suffixed "a" i ∈ names letters).
Proof.
  assert ("A" ∈ names letters) as HA by by_computation.
  assert (lower "A" = lower "a") as Hcase by reflexivity.
  assert (lower (strip "a") ≠ "name") as Hname by discriminate.
  split; [done|].
  exact (add_columns_case_sensitive letters "A" "a" HA Hcase Hname).
Defined.

(** C10, the claim as worded. A table that has the column "A" may have the
    column "a" too; the requested name "a" is then appended as "a_2". *)
Lemma add_columns_second_spelling_suffixed :
  "A" ∈ names both_cases ∧
  names <$> add_columns both_cases ["a"] = Some ["A"; "a"; "a_2"] ∧
  names <$> add_columns both_cases ["a"] ≠ Some (names both_cases ++ ["a"]).
Proof.
  split; [by_computation|]. split; [reflexivity|]. discriminate.
Qed.

Lemma frame_ok_stock : frame_ok stock.
Proof.
  split; [by_computation|].
  repeat (apply Forall_cons; split; [split; [reflexivity|by_computation]|]).
  apply Forall_nil_2.
Defined.

Example add_rows_stock :
  add_rows stock 1 =
  mkFrame (range 4)
    [ ("Product", mkSeries object_
         [CStr "bolt"; CStr "nut"; CStr "washer"; CNone]);
      ("Quantity", mkSeries object_ [CNum 10%Z; CNum 25%Z; CNum 7%Z; CNone]);
      ("Note", mkSeries object_ [CStr "ok"; CNaN; CStr "low"; CNone]) ].
Proof. reflexivity. Qed.

(** An all-missing float column stays float64 in a unit with a float column
    that has values, and becomes an object column when it is a unit of its
    own. *)
Example add_rows_float_unit :
  columns (add_rows weights_adjacent 1) =
  [ ("Amount", mkSeries float64 [CNum 3%Z; CNum 4%Z; CNaN]);
    ("Weight", mkSeries float64 [CNaN; CNaN; CNaN]) ].
Proof. reflexivity. Qed.

Example add_rows_lone_missing_column :
  columns (add_rows weights_apart 1) =
  [ ("Amount", mkSeries float64 [CNum 3%Z; CNum 4%Z; CNaN]);
    ("Count", mkSeries object_ [CNum 1%Z; CNum 2%Z; CNone]);
    ("Weight", mkSeries object_ [CNaN; CNaN; CNone]) ].
Proof. reflexivity. Qed.

Example add_rows_new_file :
  add_rows empty_frame 2 = mkFrame (range 2) [].
Proof. reflexivity. Qed.

Lemma add_rows_appends_blank_rows_stock :
  (frame_ok stock ∧ (1 ≤ 2)%nat) ∧
  nrows (add_rows stock 2) = (nrows stock + 2)%nat ∧
  index (add_rows stock 2) = range (nrows stock + 2) ∧
  names (add_rows stock 2) = names stock ∧
  take (nrows stock) (rows (add_rows stock 2)) = rows stock ∧
  (∀ name s, (name, s) ∈ columns stock →
     ∃ s', get_column (add_rows stock 2) name = Some s' ∧
           take (nrows stock) (svalues s') = svalues s ∧
           length (drop (nrows stock) (svalues s')) = 2%nat ∧
           Forall (λ c, is_absent c = true) (drop (nrows stock) (svalues s'))) ∧
  (∀ i, (nrows stock ≤ i < nrows stock + 2)%nat →
     Forall (λ oc, ∃ c, oc = Some c ∧ is_absent c = true ∧
                        is_number c = false ∧ is_text c = false)
       (row (add_rows stock 2) i)).
Proof.
  assert (1 ≤ 2)%nat as Hn by lia.
  split; [split; [exact frame_ok_stock|exact Hn]|].
  exact (add_rows_appends_blank_rows stock 2 frame_ok_stock Hn).
Defined.

(** C6. The rows are offered by position ([range(len(edited_df))], line
    212) and dropped by label (line 216). The editor keeps the labels of the
    rows that remain when a row is removed in it, so on such a view a
    position in range is not the label of the row at that position. On the
    two-row view labelled 1 and 2, the positions 0 and 1 are in range;
    position 0 raises [KeyError], out of the handler, and nothing is
    written; position 1 returns the view with the row at position 1 kept and
    the row at position 0 removed. *)
Theorem delete_rows_takes_positions_for_labels :
  index stock_view_after_removal = [1; 2]%Z ∧
  Forall (λ l, (0 ≤ l < Z.of_nat (nrows stock_view_after_removal))%Z)
    [0; 1]%Z ∧
  delete_rows stock_view_after_removal [0%Z]
  = Raise (KeyError "[0] not found in axis") ∧
  delete_rows_handler data_path stock_view_after_removal [0%Z] stock_world
  = (Raise (KeyError "[0] not found in axis"), stock_world) ∧
  ∃ df', delete_rows stock_view_after_removal [1%Z] = Ret df' ∧
         index df' = [0%Z] ∧
         rows df' = [row stock_view_after_removal 1] ∧
         rows df' ≠ row stock_view_after_removal <$>
                      kept_positions (nrows stock_view_after_removal) [1%Z].
Proof.
  split; [reflexivity|]. split; [by_computation|].
  split; [reflexivity|]. split; [reflexivity|].
  eexists. split; [reflexivity|]. split; [reflexivity|].
  split; [reflexivity|]. discriminate.
Qed.

Lemma delete_rows_removes_listed_rows_stock :
  (index stock = range (nrows stock) ∧
   Forall (λ c, length (svalues c.2) = nrows stock) (columns stock)) ∧
  (Forall (λ l, (0 ≤ l < Z.of_nat (nrows stock))%Z) [1%Z] →
   ∃ df', delete_rows stock [1%Z] = Ret df' ∧
          names df' = names stock ∧
          rows df' = row stock <$> kept_positions (nrows stock) [1%Z] ∧
          index df' = range (nrows df') ∧
          nrows df' = (nrows stock - length (remove_dups [1%Z]))%nat ∧
          (NoDup [1%Z] → nrows df' = (nrows stock - length [1%Z])%nat)) ∧
  (¬ Forall (λ l, (0 ≤ l < Z.of_nat (nrows stock))%Z) [1%Z] →
   ∃ msg, delete_rows stock [1%Z] = Raise (KeyError msg)).
Proof.
  assert (Forall (λ c, length (svalues c.2) = nrows stock) (columns stock))
    as Hcols by by_computation.
  split; [by split|].
  exact (delete_rows_removes_listed_rows stock [1%Z] eq_refl Hcols).
Defined.

Example delete_second_row :
  delete_rows stock [1%Z] =
  Ret (mkFrame (range 2)
         [ ("Product", mkSeries object_ [CStr "bolt"; CStr "washer"]);
           ("Quantity", mkSeries int64 [CNum 10%Z; CNum 7%Z]);
           ("Note", mkSeries object_ [CStr "ok"; CStr "low"]) ]).
Proof. reflexivity. Qed.

Example delete_row_out_of_range :
  delete_rows stock [3%Z] = Raise (KeyError "[3] not found in axis").
Proof. reflexivity. Qed.

(** ** Further runs on the sample table *)

Lemma restore_dtypes_idempotent_stock :
  restore_dtypes (dtypes stock) edited_stock
    = Ret (mkFrame (range 3)
        [ ("Product", mkSeries object_ [CStr "bolt"; CStr "nut"; CStr "washer"]);
          ("Quantity", mkSeries float64 [CNum 10%Z; CNaN; CNum 7%Z]);
          ("Note", mkSeries object_ [CStr "ok"; CStr "nan"; CStr "low"]) ]) ∧
  restore_dtypes (dtypes stock)
    (mkFrame (range 3)
        [ ("Product", mkSeries object_ [CStr "bolt"; CStr "nut"; CStr "washer"]);
          ("Quantity", mkSeries float64 [CNum 10%Z; CNaN; CNum 7%Z]);
          ("Note", mkSeries object_ [CStr "ok"; CStr "nan"; CStr "low"]) ])
    = Ret (mkFrame (range 3)
        [ ("Product", mkSeries object_ [CStr "bolt"; CStr "nut"; CStr "washer"]);
          ("Quantity", mkSeries float64 [CNum 10%Z; CNaN; CNum 7%Z]);
          ("Note", mkSeries object_ [CStr "ok"; CStr "nan"; CStr "low"]) ]).
Proof.
  split; [reflexivity|].
  exact (restore_dtypes_idempotent (dtypes stock) edited_stock _ eq_refl).
Defined.

Lemma roundtrip_numeric_column_stock :
  (NoDup (names stock) ∧
   ("Quantity", mkSeries int64 [CNum 10%Z; CNum 25%Z; CNum 7%Z]) ∈ columns stock ∧
   is_numeric_dtype int64 = true ∧
   parse_numeric "nan" = None) ∧
  ∃ df' s', restore_dtypes (dtypes stock) (to_editable stock) = Ret df' ∧
            get_column df' "Quantity" = Some s' ∧
            is_numeric_dtype (sdtype s') = true ∧
            svalues s' = [CNum 10%Z; CNum 25%Z; CNum 7%Z].
Proof.
  assert (NoDup (names stock)) as Hnd by by_computation.
  assert (("Quantity", mkSeries int64 [CNum 10%Z; CNum 25%Z; CNum 7%Z])
            ∈ columns stock) as Hin by by_computation.
  split; [by repeat split|].
  refine (roundtrip_numeric_column stock "Quantity" _ Hnd Hin eq_refl eq_refl _).
  repeat (apply Forall_cons; split;
          [right; eexists _, true; split; reflexivity|]).
  apply Forall_nil_2.
Defined.

Lemma delete_then_add_restores_labels_stock :
  (NoDup (names stock) ∧ NoDup ["Note"; "Product"] ∧
   (∀ c, c ∈ ["Note"; "Product"] → c ∈ names stock) ∧
   (∀ c, c ∈ ["Note"; "Product"] → lower (strip c) ≠ "name")) ∧
  ∃ df', add_columns (delete_columns stock ["Note"; "Product"])
           ["Note"; "Product"] = Some df' ∧
         names df' = filter (λ c, c ∉ ["Note"; "Product"]) (names stock)
                     ++ ["Note"; "Product"] ∧
         names df' ≡ₚ names stock.
Proof.
  assert (NoDup (names stock)) as Hnd by by_computation.
  assert (NoDup ["Note"; "Product"]) as Hcols by by_computation.
  assert (Forall (λ c, c ∈ names stock ∧ lower (strip c) ≠ "name")
            ["Note"; "Product"]) as Hall by by_computation.
  rewrite Forall_forall in Hall.
  split; [repeat split; try done; intros c Hc; by apply Hall|].
  exact (delete_then_add_restores_labels stock ["Note"; "Product"] Hnd Hcols
           (λ c Hc, proj1 (Hall c Hc)) (λ c Hc, proj2 (Hall c Hc))).
Defined.

Example delete_then_add_stock :
  names <$> add_columns (delete_columns stock ["Note"; "Product"])
              ["Note"; "Product"]
  = Some ["Quantity"; "Note"; "Product"].
Proof. reflexivity. Qed.

Lemma delete_rows_same_labels_stock :
  ((∀ x, x ∈ [1%Z; 2%Z] ↔ x ∈ [2%Z; 1%Z; 1%Z]) ∧
   Forall (λ l, l ∈ index stock) [1%Z; 2%Z]) ∧
  delete_rows stock [1%Z; 2%Z] = delete_rows stock [2%Z; 1%Z; 1%Z].
Proof.
  assert (∀ x, x ∈ [1%Z; 2%Z] ↔ x ∈ [2%Z; 1%Z; 1%Z]) as Hsame.
  { intros x. rewrite !elem_of_cons, !elem_of_nil. tauto. }
  assert (Forall (λ l, l ∈ index stock) [1%Z; 2%Z]) as Hin by by_computation.
  split; [by split|].
  exact (delete_rows_same_labels stock _ _ Hsame Hin).
Defined.

Lemma add_then_delete_rows_stock :
  (frame_ok stock ∧ (1 ≤ 2)%nat) ∧
  ∃ df', delete_rows (add_rows stock 2) (Z.of_nat <$> seq (nrows stock) 2)
         = Ret df' ∧
         names df' = names stock ∧
         nrows df' = nrows stock ∧
         rows df' = rows stock ∧
         (∀ name s, (name, s) ∈ columns stock →
            ∃ s', get_column df' name = Some s' ∧ svalues s' = svalues s).
Proof.
  assert (1 ≤ 2)%nat as Hn by lia.
  split; [split; [exact frame_ok_stock|exact Hn]|].
  exact (add_then_delete_rows stock 2 frame_ok_stock Hn).
Defined.

Lemma write_then_read_stock :
  ((data_path ∉ locked no_files) ∧
   to_excel_bytes stock ≠ "" ∧
   read_excel_bytes (to_excel_bytes stock) = inr stock) ∧
  ∃ w1, safe_write_excel data_path stock no_files = (Ret (), w1) ∧
        safe_read_excel data_path w1 = (Ret stock, w1).
Proof.
  assert (data_path ∉ locked no_files) as Hl by by_computation.
  assert (to_excel_bytes stock ≠ "") as Hne by discriminate.
  split; [by repeat split|].
  exact (write_then_read data_path stock stock no_files Hl Hne eq_refl).
Defined.

Lemma created_file_is_listed_stock :
  (plain_name "new.xlsx" = true ∧
   endswith (lower "new.xlsx") ".xlsx" = true ∧
   joinpath DATA_FOLDER "new.xlsx" ∉ locked stock_world) ∧
  ∃ w' listing,
    create_file_handler DATA_FOLDER "new.xlsx" stock_world
      = (Raise RerunException, w') ∧
    list_excel_files DATA_FOLDER w' = (Ret listing, w') ∧
    "new.xlsx" ∈ listing.
Proof.
  assert (joinpath DATA_FOLDER "new.xlsx" ∉ locked stock_world) as Hl
    by by_computation.
  split; [by repeat split|].
  exact (created_file_is_listed DATA_FOLDER "new.xlsx" stock_world
           eq_refl eq_refl Hl).
Defined.

Example listing_after_create :
  ∃ w, create_file_handler DATA_FOLDER "New.XLSX" stock_world
       = (Raise RerunException, w) ∧
       fst (list_excel_files DATA_FOLDER w) = Ret ["New.XLSX"; "stock.xlsx"].
Proof. eexists. split; reflexivity. Qed.

Lemma deleted_file_is_unlisted_stock :
  ("stock.xlsx" ≠ none_label ∧
   is_Some (files stock_world !! joinpath DATA_FOLDER "stock.xlsx") ∧
   joinpath DATA_FOLDER "stock.xlsx" ∉ locked stock_world) ∧
  ∃ w' before after,
    delete_file_handler DATA_FOLDER "stock.xlsx" true stock_world
      = (Raise RerunException, w') ∧
    list_excel_files DATA_FOLDER stock_world = (Ret before, stock_world) ∧
    list_excel_files DATA_FOLDER w' = (Ret after, w') ∧
    ("stock.xlsx" ∉ after) ∧
    (∀ name, name ≠ "stock.xlsx" → name ∈ after ↔ name ∈ before).
Proof.
  assert ("stock.xlsx" ≠ none_label) as Hsel by discriminate.
  assert (is_Some (files stock_world !! joinpath DATA_FOLDER "stock.xlsx"))
    as Hf by by_computation.
  assert (joinpath DATA_FOLDER "stock.xlsx" ∉ locked stock_world) as Hl
    by by_computation.
  split; [by repeat split|].
  exact (deleted_file_is_unlisted DATA_FOLDER "stock.xlsx" stock_world
           Hsel Hf Hl).
Defined.

Lemma create_then_delete_file_stock :
  (plain_name "new.xlsx" = true ∧
   endswith (lower "new.xlsx") ".xlsx" = true ∧
   files stock_world !! joinpath DATA_FOLDER "new.xlsx" = None ∧
   joinpath DATA_FOLDER "new.xlsx" ∉ locked stock_world) ∧
  ∃ w1 w2,
    create_file_handler DATA_FOLDER "new.xlsx" stock_world
      = (Raise RerunException, w1) ∧
    delete_file_handler DATA_FOLDER "new.xlsx" true w1
      = (Raise RerunException, w2) ∧
    files w2 = files stock_world.
Proof.
  assert (joinpath DATA_FOLDER "new.xlsx" ∉ locked stock_world) as Hl
    by by_computation.
  split; [by repeat split|].
  exact (create_then_delete_file DATA_FOLDER "new.xlsx" stock_world
           eq_refl eq_refl eq_refl Hl).
Defined.

Lemma save_table_handler_missing_column_stock :
  (("Quantity", int64) ∈ dtypes stock ∧
   is_numeric_dtype int64 = true ∧
   "Quantity" ∉ names (delete_columns (to_editable stock) ["Quantity"])) ∧
  ∃ c, save_table_handler data_path (dtypes stock)
         (delete_columns (to_editable stock) ["Quantity"]) stock_world
       = (Raise (KeyError c), stock_world) ∧
       (c ∉ names (delete_columns (to_editable stock) ["Quantity"])) ∧
       recorded_numeric (dtypes stock) c = true.
Proof.
  assert (("Quantity", int64) ∈ dtypes stock) as Hin by by_computation.
  assert ("Quantity" ∉ names (delete_columns (to_editable stock) ["Quantity"]))
    as Hcol by by_computation.
  split; [by repeat split|].
  exact (save_table_handler_missing_column data_path (dtypes stock) _
           "Quantity" int64 stock_world Hin eq_refl Hcol).
Defined.

Lemma save_table_handler_reconciles_stock :
  (restore_dtypes (dtypes stock) edited_stock
     = Ret (mkFrame (range 3)
        [ ("Product", mkSeries object_ [CStr "bolt"; CStr "nut"; CStr "washer"]);
          ("Quantity", mkSeries float64 [CNum 10%Z; CNaN; CNum 7%Z]);
          ("Note", mkSeries object_ [CStr "ok"; CStr "nan"; CStr "low"]) ]) ∧
   data_path ∉ locked stock_world) ∧
  ∃ w', save_table_handler data_path (dtypes stock) edited_stock stock_world
        = (Ret (), w') ∧
        files w' = <[data_path := to_excel_bytes (mkFrame (range 3)
        [ ("Product", mkSeries object_ [CStr "bolt"; CStr "nut"; CStr "washer"]);
          ("Quantity", mkSeries float64 [CNum 10%Z; CNaN; CNum 7%Z]);
          ("Note", mkSeries object_ [CStr "ok"; CStr "nan"; CStr "low"]) ])]>
          (files stock_world).
Proof.
  assert (data_path ∉ locked stock_world) as Hl by by_computation.
  split; [by split|].
  exact (save_table_handler_reconciles data_path (dtypes stock) edited_stock _
           stock_world eq_refl Hl).
Defined.
